(** * SDMX structure metadata: a shallow embedding of [sdmx_metadata.py]

    The class [SDMXMetadata] loads an SDMX structure document with
    ElementTree, strips the namespaces of the tags, and builds the lookup
    tables (concept code -> name, concept code -> coded value -> description)
    that the CSV rewriter queries for every cell.

    Python values are embedded as follows.
    - [str] is [string]; a value that is either a [str] or [None]
      (an element's [.text], a cell of a short CSV row) is [option string].
    - a [dict] is a [gmap]; a [list] is a [list], [append] adds at the end.
    - an ElementTree element is a node of the tree [Element]; the document
      is the tree the XML parser hands to the program (parsing XML text is
      the library's work and is not part of the embedding).
    - a call that may raise returns a [result]: [Ok v] or [Raise e], with
      [e] the Python exception.  The class defines no exception of its own.
    - [print] and [pprint.pprint] only write to the standard output and are
      left out. *)

From stdpp Require Import gmap strings list fin_maps.
From Stdlib Require Import Ascii.

(** ** Exceptions and results *)

Inductive PyExn : Type :=
| AttributeError   (* [None.attrib], [None.text], [None.find], [None.strip] *)
| KeyError         (* a missing dict key or XML attribute *)
| SyntaxError.     (* ElementPath refusing a path *)

Inductive result (A : Type) : Type :=
| Ok (a : A)
| Raise (e : PyExn).
Arguments Ok {A} a.
Arguments Raise {A} e.

#[global] Instance result_ret : MRet result := fun _ a => Ok a.
#[global] Instance result_bind : MBind result := fun _ _ f r =>
  match r with
  | Ok a => f a
  | Raise e => Raise e
  end.

(** [d[k]] on a dict: [KeyError] when the key is missing. *)
Definition getitem `{Countable K} {V} (d : gmap K V) (k : K) : result V :=
  match d !! k with
  | Some v => Ok v
  | None => Raise KeyError
  end.

(** A [for] loop whose body may raise: the first exception ends the loop. *)
Fixpoint for_each {A S : Type} (body : S -> A -> result S)
    (l : list A) (s : S) : result S :=
  match l with
  | [] => Ok s
  | x :: l' => s' ← body s x; for_each body l' s'
  end.

(** ** Strings *)

(** [c in s] for a one-character [c]. *)
Fixpoint char_in (c : ascii) (s : string) : bool :=
  match s with
  | EmptyString => false
  | String a s' => if Ascii.eqb a c then true else char_in c s'
  end.

(** [s.split(c, 1)]: at most one split, at the first [c]. *)
Fixpoint split_once (c : ascii) (s : string) : list string :=
  match s with
  | EmptyString => [EmptyString]
  | String a s' =>
      if Ascii.eqb a c then [EmptyString; s']
      else match split_once c s' with
           | hd :: tl => String a hd :: tl
           | [] => [String a EmptyString]
           end
  end.

(** [str.isspace] of one character.  Characters are code points below 256:
    TAB, LF, VT, FF, CR, the separators FS, GS, RS, US, the space, NEL and
    the no-break space. *)
Definition py_isspace (a : ascii) : bool :=
  let n := nat_of_ascii a in
  (((9 <=? n) && (n <=? 13)) || ((28 <=? n) && (n <=? 32))
   || (n =? 133) || (n =? 160))%nat.

Fixpoint lstrip (s : string) : string :=
  match s with
  | EmptyString => EmptyString
  | String a s' => if py_isspace a then lstrip s' else s
  end.

(** [rstrip]: a character is kept when something that is not a space
    remains at or after it. *)
Fixpoint rstrip (s : string) : string :=
  match s with
  | EmptyString => EmptyString
  | String a s' =>
      match rstrip s' with
      | EmptyString => if py_isspace a then EmptyString else String a EmptyString
      | r => String a r
      end
  end.

(** [s.strip()] *)
Definition strip (s : string) : string := rstrip (lstrip s).

(** Truth value of a [str]-or-[None]: [None] and [""] are false. *)
Definition truthy (v : option string) : bool :=
  match v with
  | None => false
  | Some EmptyString => false
  | Some _ => true
  end.

(** ** The element tree *)

#[local] Set Warnings "-register-all".

Inductive Element : Type :=
  Elem (tag : string) (attrib : gmap string string)
       (text : option string) (children : list Element).

Definition tag (e : Element) : string := let 'Elem t _ _ _ := e in t.
Definition attrib (e : Element) : gmap string string := let 'Elem _ a _ _ := e in a.
Definition text (e : Element) : option string := let 'Elem _ _ x _ := e in x.
Definition children (e : Element) : list Element := let 'Elem _ _ _ cs := e in cs.

(** [elem.iter()]: the element, then its subtree in document order. *)
Fixpoint iter (e : Element) : list Element :=
  match e with
  | Elem _ _ _ cs => e :: flat_map iter cs
  end.

(** What ElementPath's [//] step visits from [e]: [e.iter()] without [e]
    itself. *)
Definition descendants (e : Element) : list Element :=
  flat_map iter (children e).

(** [bool(elem)]: an element is true when it has at least one child. *)
Definition elem_truthy (e : Element) : bool :=
  match children e with
  | [] => false
  | _ :: _ => true
  end.

(** [elem.findall('.//T')] for a plain tag [T]. *)
Definition findall_descendants (t : string) (e : Element) : list Element :=
  filter (fun d => tag d = t) (descendants e).

(** [elem.findall('T')] for a plain tag [T]: the children tagged [T]. *)
Definition findall_children (t : string) (e : Element) : list Element :=
  filter (fun d => tag d = t) (children e).

(** [elem.find(path)] is the first result of [findall], or [None]. *)
Definition find_descendant (t : string) (e : Element) : option Element :=
  head (findall_descendants t e).

Definition find_child (t : string) (e : Element) : option Element :=
  head (findall_children t e).

(** [root.findall('.//KeyFamily//*[@conceptRef]')]: for each descendant
    tagged [KeyFamily], in document order, each of its descendants that
    carries the attribute.  ElementPath does not remove duplicates: an
    element below two nested [KeyFamily] elements is listed twice. *)
Definition findall_keyfamily_refs (root : Element) : list Element :=
  kf ← findall_descendants "KeyFamily" root;
  filter (fun d => is_Some (attrib d !! "conceptRef")) (descendants kf).

(** [root.find('.//T[@id="%s"]' % v)].  The value is pasted between double
    quotes into the path.  Without a double quote in [v] the predicate
    reads [elem.get('id') == v].  A double quote in [v] ends the literal
    early and ElementPath is given another path than the one intended (an
    invalid predicate in the plain case); the embedding stops there with
    [SyntaxError], so a constructed model always comes from a document
    whose concept codes and codelist keys are free of double quotes. *)
Definition find_by_id (t v : string) (root : Element) : result (option Element) :=
  if char_in "034"%char v then Raise SyntaxError
  else Ok (head (filter (fun d => attrib d !! "id" = Some v)
                        (findall_descendants t root))).

(** [x.attr] on the result of a [find]: [AttributeError] on [None]. *)
Definition deref {A} (o : option A) : result A :=
  match o with
  | Some a => Ok a
  | None => Raise AttributeError
  end.

(** ** Loading the document *)

(** [__remove_xml_namespace] *)
Definition remove_xml_namespace (tag_name : string) : string :=
  if char_in "}"%char tag_name
  then nth 1 (split_once "}"%char tag_name) EmptyString
  else tag_name.

(** [__load_xml]: [iterparse] reports each element when its end tag is
    read, children before their parent, and the loop rewrites the tag of
    the element reported; [iterator.root] is the root of the same tree. *)
Fixpoint load_xml (parsed : Element) : Element :=
  match parsed with
  | Elem t a x cs =>
      let cs' := map load_xml cs in
      Elem (remove_xml_namespace t) a x cs'
  end.

(** ** Construction *)

(** [__load_primary_measure] *)
Definition load_primary_measure (root : Element) : result string :=
  pm ← deref (find_descendant "PrimaryMeasure" root);
  getitem (attrib pm) "conceptRef".

(** The tables filled by the first loop of [__load_concepts]. *)
Record ConceptRefs : Type := mkConceptRefs {
  cr_codes : list string;
  cr_codelist_keys : list string;
  cr_code_to_codelist_key : gmap string string;
  cr_codelist_key_to_code : gmap string string
}.

Definition no_refs : ConceptRefs := mkConceptRefs [] [] ∅ ∅.

Definition concept_ref_step (st : ConceptRefs) (concept : Element)
    : result ConceptRefs :=
  code ← getitem (attrib concept) "conceptRef";
  let codes := cr_codes st ++ [code] in
  match attrib concept !! "codelist" with
  | Some codelist_key =>
      Ok (mkConceptRefs codes
            (cr_codelist_keys st ++ [codelist_key])
            (<[code := codelist_key]> (cr_code_to_codelist_key st))
            (<[codelist_key := code]> (cr_codelist_key_to_code st)))
  | None =>
      Ok (mkConceptRefs codes (cr_codelist_keys st)
            (cr_code_to_codelist_key st) (cr_codelist_key_to_code st))
  end.

(** The tables filled by the second loop of [__load_concepts]. *)
Record ConceptNames : Type := mkConceptNames {
  cn_code_to_name : gmap string (option string);
  cn_name_to_code : gmap (option string) string
}.

Definition no_names : ConceptNames := mkConceptNames ∅ ∅.

(** [root.find('.//Concept[@id="%s"]' % code).find('Name').text] *)
Definition concept_name (root : Element) (code : string)
    : result (option string) :=
  found ← find_by_id "Concept" code root;
  concept ← deref found;
  name ← deref (find_child "Name" concept);
  Ok (text name).

Definition concept_name_step (root : Element) (st : ConceptNames)
    (code : string) : result ConceptNames :=
  name ← concept_name root code;
  Ok (mkConceptNames (<[code := name]> (cn_code_to_name st))
                     (<[name := code]> (cn_name_to_code st))).

(** [__load_concepts] *)
Definition load_concepts (root : Element) : result (ConceptRefs * ConceptNames) :=
  refs ← for_each concept_ref_step (findall_keyfamily_refs root) no_refs;
  names ← for_each (concept_name_step root) (cr_codes refs) no_names;
  Ok (refs, names).

(** The inner loop of [__load_code_levels], over the [Code] children. *)
Definition code_level_step (levels : gmap string (option string))
    (level : Element) : result (gmap string (option string)) :=
  code_value ← getitem (attrib level) "value";
  description ← deref (find_child "Description" level);
  Ok (<[code_value := text description]> levels).

(** The body of the outer loop of [__load_code_levels]. *)
Definition code_list_step (root : Element)
    (codelist_key_to_code : gmap string string)
    (code_levels : gmap string (gmap string (option string)))
    (codelist_key : string)
    : result (gmap string (gmap string (option string))) :=
  found ← find_by_id "CodeList" codelist_key root;
  match found with
  | Some code_list =>
      if elem_truthy code_list then
        concept_code ← getitem codelist_key_to_code codelist_key;
        levels ← for_each code_level_step (findall_children "Code" code_list) ∅;
        Ok (<[concept_code := levels]> code_levels)
      else Ok code_levels
  | None => Ok code_levels
  end.

(** [__load_code_levels] *)
Definition load_code_levels (root : Element) (refs : ConceptRefs)
    : result (gmap string (gmap string (option string))) :=
  for_each (code_list_step root (cr_codelist_key_to_code refs))
           (cr_codelist_keys refs) ∅.

(** The instance, once [__init__] has returned. *)
Record SDMXMetadata : Type := mkSDMXMetadata {
  primary_measure_code : string;
  concept_codes : list string;
  concept_codelist_keys : list string;
  concept_code_to_codelist_key : gmap string string;
  codelist_key_to_concept_code : gmap string string;
  concept_code_to_name : gmap string (option string);
  name_to_concept_code : gmap (option string) string;
  code_levels : gmap string (gmap string (option string))
}.

(** [__init__], from the tree [__load_xml] returned.  An exception leaves
    no instance. *)
Definition init_from_root (root : Element) : result SDMXMetadata :=
  pm ← load_primary_measure root;
  '(refs, names) ← load_concepts root;
  levels ← load_code_levels root refs;
  Ok (mkSDMXMetadata pm (cr_codes refs) (cr_codelist_keys refs)
        (cr_code_to_codelist_key refs) (cr_codelist_key_to_code refs)
        (cn_code_to_name names) (cn_name_to_code names) levels).

(** [SDMXMetadata(path)], from the tree the parser builds for the file. *)
Definition init (parsed : Element) : result SDMXMetadata :=
  init_from_root (load_xml parsed).

(** ** Queries *)

Definition is_primary_measure_code (m : SDMXMetadata) (code : string) : bool :=
  bool_decide (code = primary_measure_code m).

Definition codes (m : SDMXMetadata) : list string := concept_codes m.

Definition name_by_code (m : SDMXMetadata) (code : string)
    : result (option string) :=
  getitem (concept_code_to_name m) code.

Definition code_by_name (m : SDMXMetadata) (name : option string)
    : result string :=
  getitem (name_to_concept_code m) name.

(** [code_levels_by_code]: [Ok None] is Python's [None]. *)
Definition code_levels_by_code (m : SDMXMetadata) (code : string)
    : result (option (gmap string (option string))) :=
  if is_primary_measure_code m code then Ok None
  else levels ← getitem (code_levels m) code; Ok (Some levels).

(** [description_by_code_level].  A [code_level] that gets past the first
    test is a non-empty [str]. *)
Definition description_by_code_level (m : SDMXMetadata) (code : string)
    (code_level : option string) (trim : bool) : result (option string) :=
  if negb (truthy code_level) then Ok code_level
  else if is_primary_measure_code m code then Ok code_level
  else
    levels ← getitem (code_levels m) code;
    description ← match code_level with
                  | Some v => getitem levels v
                  | None => Raise KeyError
                  end;
    if trim then s ← deref description; Ok (Some (strip s))
    else Ok description.

(** ** Example documents *)

Module Examples.

(** An element written with its attributes as a list. *)
Definition el (t : string) (a : list (string * string))
    (x : option string) (cs : list Element) : Element :=
  Elem t (list_to_map a) x cs.

Definition named (t id name : string) (cs : list Element) : Element :=
  el t [("id", id)] None (el "Name" [] (Some name) [] :: cs).

Definition code (value description : string) : Element :=
  el "Code" [("value", value)] None
     [el "Description" [] (Some description) []].

Definition structure (codelists concepts components : list Element) : Element :=
  el "Structure" [] None
     [el "CodeLists" [] None codelists;
      el "Concepts" [] None concepts;
      el "KeyFamilies" [] None
         [el "KeyFamily" [("id", "KF")] None
             [el "Components" [] None components]]].

(** The document of the specification's examples: [SEX] with the
    codelist [CL_SEX], [AGE] with an indented description, and the
    primary measure [OBS_VALUE]. *)
Definition census : Element :=
  structure
    [named "CodeList" "CL_SEX" "Sex" [code "1" "Total"; code "2" "Male"; code "3" "Female"];
     named "CodeList" "CL_AGE" "Age" [code "01" "   75 years and over"]]
    [named "Concept" "SEX" "Sex" [];
     named "Concept" "AGE" "Age" [];
     named "Concept" "OBS_VALUE" "Observation" []]
    [el "Dimension" [("conceptRef", "SEX"); ("codelist", "CL_SEX")] None [];
     el "Dimension" [("conceptRef", "AGE"); ("codelist", "CL_AGE")] None [];
     el "PrimaryMeasure" [("conceptRef", "OBS_VALUE")] None []].

(** The same document as the parser delivers it, every tag qualified. *)
Fixpoint qualify (ns : string) (e : Element) : Element :=
  match e with
  | Elem t a x cs => Elem ("{" +:+ ns +:+ "}" +:+ t) a x (map (qualify ns) cs)
  end.

Definition census_parsed : Element := qualify "http://www.SDMX.org/structure" census.

End Examples.

(** ** Document-side notions used by the statements *)

(** The tree the loader returns, described without the loader: the same
    nodes, attributes, text and children, each tag stripped. *)
Inductive stripped : Element -> Element -> Prop :=
| stripped_node t a x cs cs' :
    Forall2 stripped cs cs' ->
    stripped (Elem t a x cs) (Elem (remove_xml_namespace t) a x cs').

(** The concept codes the key family refers to, one per reference, in
    document order. *)
Definition key_family_codes (refs : list Element) : list string :=
  omap (fun e => attrib e !! "conceptRef") refs.

(** What the first loop of [__load_concepts] keeps true.  The last clause
    says where the key of a concept stands in the list of keys when the
    key still belongs to that concept: no later key leads back to it. *)
Record refs_consistent (visited : list Element) (st : ConceptRefs) : Prop := {
  rc_codes : cr_codes st = key_family_codes visited;
  rc_forward : forall c k,
    cr_code_to_codelist_key st !! c = Some k -> c ∈ cr_codes st;
  rc_backward : forall k c,
    cr_codelist_key_to_code st !! k = Some c ->
    is_Some (cr_code_to_codelist_key st !! c);
  rc_last : forall c k,
    cr_code_to_codelist_key st !! c = Some k ->
    cr_codelist_key_to_code st !! k = Some c ->
    exists before after,
      cr_codelist_keys st = before ++ k :: after /\
      forall k', k' ∈ after -> cr_codelist_key_to_code st !! k' <> Some c
}.

(** What the second loop of [__load_concepts] keeps true. *)
Record names_consistent (root : Element) (visited : list string)
    (st : ConceptNames) : Prop := {
  nc_visited : forall c, c ∈ visited -> is_Some (cn_code_to_name st !! c);
  nc_from_document : forall c n,
    cn_code_to_name st !! c = Some n -> concept_name root c = Ok n;
  nc_indexed : forall c n,
    cn_code_to_name st !! c = Some n -> is_Some (cn_name_to_code st !! n);
  nc_back : forall n c,
    cn_name_to_code st !! n = Some c -> cn_code_to_name st !! c = Some n
}.

(** The codelist key leads to no [CodeList] element, or to one without any
    child element: the two cases [if code_list:] does not tell apart. *)
Definition code_list_missing_or_childless (root : Element) (k : string) : Prop :=
  find_by_id "CodeList" k root = Ok None \/
  exists code_list,
    find_by_id "CodeList" k root = Ok (Some code_list) /\
    children code_list = [].

(** ** More example documents *)

(** A key family without a primary measure. *)
Definition no_measure : Element :=
  Examples.qualify "ns"
    (Examples.structure []
       [Examples.named "Concept" "SEX" "Sex" []]
       [Examples.el "Dimension" [("conceptRef", "SEX")] None []]).

(** Two codes with one display name. *)
Definition shared_name : Element :=
  Examples.structure []
    [Examples.named "Concept" "GEO" "Area" [];
     Examples.named "Concept" "POW" "Area" [];
     Examples.named "Concept" "OBS_VALUE" "Observation" []]
    [Examples.el "Dimension" [("conceptRef", "GEO")] None [];
     Examples.el "Dimension" [("conceptRef", "POW")] None [];
     Examples.el "PrimaryMeasure" [("conceptRef", "OBS_VALUE")] None []].

Definition shared_name_model : SDMXMetadata := Eval vm_compute in
  match init_from_root shared_name with
  | Ok m => m
  | Raise _ => mkSDMXMetadata "" [] [] ∅ ∅ ∅ ∅ ∅
  end.

(** [SEX] referred to twice in the key family, by a dimension and by an
    attribute, with different codelists. *)
Definition duplicate_codes : Element :=
  Examples.structure
    [Examples.named "CodeList" "CL_SEX" "Sex" [Examples.code "1" "Total"];
     Examples.named "CodeList" "CL_GENDER" "Gender" [Examples.code "M" "Male"]]
    [Examples.named "Concept" "SEX" "Sex" [];
     Examples.named "Concept" "OBS_VALUE" "Observation" []]
    [Examples.el "Dimension" [("conceptRef", "SEX"); ("codelist", "CL_SEX")] None [];
     Examples.el "Attribute" [("conceptRef", "SEX"); ("codelist", "CL_GENDER")] None [];
     Examples.el "PrimaryMeasure" [("conceptRef", "OBS_VALUE")] None []].

(** A dimension whose codelist is defined with a name but no code yet. *)
Definition codelist_without_codes : Element :=
  Examples.structure
    [Examples.named "CodeList" "CL_AGE" "Age" []]
    [Examples.named "Concept" "AGE" "Age" [];
     Examples.named "Concept" "OBS_VALUE" "Observation" []]
    [Examples.el "Dimension" [("conceptRef", "AGE"); ("codelist", "CL_AGE")] None [];
     Examples.el "PrimaryMeasure" [("conceptRef", "OBS_VALUE")] None []].

(** The same dimension, its codelist defined nowhere. *)
Definition codelist_undefined : Element :=
  Examples.structure []
    [Examples.named "Concept" "AGE" "Age" [];
     Examples.named "Concept" "OBS_VALUE" "Observation" []]
    [Examples.el "Dimension" [("conceptRef", "AGE"); ("codelist", "CL_AGE")] None [];
     Examples.el "PrimaryMeasure" [("conceptRef", "OBS_VALUE")] None []].

(** A dimension whose [CodeList] element is there but empty. *)
Definition codelist_childless : Element :=
  Examples.structure
    [Examples.el "CodeList" [("id", "CL_AGE")] None []]
    [Examples.named "Concept" "AGE" "Age" [];
     Examples.named "Concept" "OBS_VALUE" "Observation" []]
    [Examples.el "Dimension" [("conceptRef", "AGE"); ("codelist", "CL_AGE")] None [];
     Examples.el "PrimaryMeasure" [("conceptRef", "OBS_VALUE")] None []].

Definition codelist_childless_model : SDMXMetadata := Eval vm_compute in
  match init_from_root codelist_childless with
  | Ok m => m
  | Raise _ => mkSDMXMetadata "" [] [] ∅ ∅ ∅ ∅ ∅
  end.

(** [GEO] is a dimension without a codelist. *)
Definition geo_without_codelist : Element :=
  Examples.structure
    [Examples.named "CodeList" "CL_SEX" "Sex" [Examples.code "1" "Total"]]
    [Examples.named "Concept" "GEO" "Geography" [];
     Examples.named "Concept" "SEX" "Sex" [];
     Examples.named "Concept" "OBS_VALUE" "Observation" []]
    [Examples.el "Dimension" [("conceptRef", "GEO")] None [];
     Examples.el "Dimension" [("conceptRef", "SEX"); ("codelist", "CL_SEX")] None [];
     Examples.el "PrimaryMeasure" [("conceptRef", "OBS_VALUE")] None []].

Definition geo_without_codelist_model : SDMXMetadata := Eval vm_compute in
  match init_from_root geo_without_codelist with
  | Ok m => m
  | Raise _ => mkSDMXMetadata "" [] [] ∅ ∅ ∅ ∅ ∅
  end.

(** The instance built from the census document. *)
Definition census_model : SDMXMetadata := Eval vm_compute in
  match init_from_root Examples.census with
  | Ok m => m
  | Raise _ => mkSDMXMetadata "" [] [] ∅ ∅ ∅ ∅ ∅
  end.

(** Two dimensions enumerated by one codelist, as the reference area and
    the counterpart area of a trade table are. *)
Definition shared_codelist : Element :=
  Examples.structure
    [Examples.named "CodeList" "CL_AREA" "Area"
       [Examples.code "CA" "Canada"; Examples.code "FR" "France"]]
    [Examples.named "Concept" "REF_AREA" "Reference area" [];
     Examples.named "Concept" "COUNTERPART_AREA" "Counterpart area" [];
     Examples.named "Concept" "OBS_VALUE" "Observation" []]
    [Examples.el "Dimension" [("conceptRef", "REF_AREA"); ("codelist", "CL_AREA")] None [];
     Examples.el "Dimension" [("conceptRef", "COUNTERPART_AREA"); ("codelist", "CL_AREA")] None [];
     Examples.el "PrimaryMeasure" [("conceptRef", "OBS_VALUE")] None []].

(** ** Document-side notions for the tables *)

(** The codelist keys of the key family, one per reference that carries
    one, in document order. *)
Definition key_family_codelist_keys (refs : list Element) : list string :=
  omap (fun e => attrib e !! "codelist") refs.

(** The codelist key of the last reference to the concept [c] that carries
    a codelist key. *)
Definition last_codelist_key (refs : list Element) (c : string) : option string :=
  last (omap (fun e => if decide (attrib e !! "conceptRef" = Some c)
                       then attrib e !! "codelist" else None) refs).

(** The concept code of the last reference that carries the codelist key
    [k]. *)
Definition last_concept_code (refs : list Element) (k : string) : option string :=
  last (omap (fun e => if decide (attrib e !! "codelist" = Some k)
                       then attrib e !! "conceptRef" else None) refs).



(** Blanks only. *)
Fixpoint all_space (s : string) : bool :=
  match s with
  | EmptyString => true
  | String a s' => py_isspace a && all_space s'
  end.

Definition starts_with_space (s : string) : bool :=
  match s with
  | EmptyString => false
  | String a _ => py_isspace a
  end.

Fixpoint ends_with_space (s : string) : bool :=
  match s with
  | EmptyString => false
  | String a EmptyString => py_isspace a
  | String _ s' => ends_with_space s'
  end.

(** The instance built from the document with a repeated code. *)
Definition duplicate_codes_model : SDMXMetadata := Eval vm_compute in
  match init_from_root duplicate_codes with
  | Ok m => m
  | Raise _ => mkSDMXMetadata "" [] [] ∅ ∅ ∅ ∅ ∅
  end.

(** [AGE] is referred to by the key family but defined nowhere. *)
Definition codelist_nameless_concept : Element :=
  Examples.structure []
    [Examples.named "Concept" "SEX" "Sex" [];
     Examples.named "Concept" "OBS_VALUE" "Observation" []]
    [Examples.el "Dimension" [("conceptRef", "SEX")] None [];
     Examples.el "Dimension" [("conceptRef", "AGE")] None [];
     Examples.el "PrimaryMeasure" [("conceptRef", "OBS_VALUE")] None []].

(** A [PrimaryMeasure] element that names no concept. *)
Definition measure_without_ref : Element :=
  Examples.structure []
    [Examples.named "Concept" "SEX" "Sex" []]
    [Examples.el "Dimension" [("conceptRef", "SEX")] None [];
     Examples.el "PrimaryMeasure" [] None []].

(** * The extraction script [sdmx_to_csv.py]

    The script reads an SDMX data file element by element and builds one
    dict per observation; [write_rows] hands the dicts to a
    [csv.DictWriter].  The module-level [ROWS] and [ORDERED_KEY_DICT] are
    threaded as state; the table handed to the CSV writer (the header and,
    for each dict, one field per header column) stands for the file
    written, the quoting of fields being the writer's work. *)

(** A row under construction: concept -> value, where the value stored
    under [OBS_VALUE] may be [None]. *)
Abbreviation Row := (gmap string (option string)).

(** [ORDERED_KEY_DICT[k] = 1] on the keys of an [OrderedDict]: a new key
    goes to the end, a key already there keeps its place. *)
Definition odict_set (k : string) (keys : list string) : list string :=
  if decide (k ∈ keys) then keys else keys ++ [k].

(** The elements in the order [iterparse] reports them: at their end tag,
    children before their parent. *)
Fixpoint end_events (e : Element) : list Element :=
  match e with
  | Elem _ _ _ cs => flat_map end_events cs ++ [e]
  end.

(** [append_row] *)
Definition append_row (row_array : list Row) (row : Row)
    (value : option string) : list Row :=
  row_array ++ [<["OBS_VALUE" := value]> row].

(** The local [row], the list [row_array] and the keys of
    [ORDERED_KEY_DICT]. *)
Record Extract : Type := mkExtract {
  ex_row : Row;
  ex_rows : list Row;
  ex_keys : list string
}.

(** The body of the loop of [build_rows].  [elem.clear()] empties an
    element that is not read again. *)
Definition build_rows_step (st : Extract) (elem : Element) : result Extract :=
  let tag_name := remove_xml_namespace (tag elem) in
  st1 ← (if decide (tag_name = "Value") then
           attribute_name ← getitem (attrib elem) "concept";
           attribute_value ← getitem (attrib elem) "value";
           let row := <[attribute_name := Some attribute_value]> (ex_row st) in
           let keys := odict_set attribute_name (ex_keys st) in
           if decide (attribute_name = "OBS_STATUS")
           then Ok (mkExtract ∅ (append_row (ex_rows st) row None) keys)
           else Ok (mkExtract row (ex_rows st) keys)
         else Ok st);
  if decide (tag_name = "ObsValue") then
    value ← getitem (attrib elem) "value";
    Ok (mkExtract ∅ (append_row (ex_rows st1) (ex_row st1) (Some value))
                  (ex_keys st1))
  else Ok st1.

(** [build_rows(row_array)], from the tree of the input file and the keys
    [ORDERED_KEY_DICT] holds at the call.  The pairs read after the last
    row was closed are dropped with the local [row]. *)
Definition build_rows (parsed : Element) (row_array : list Row)
    (keys : list string) : result (list Row * list string) :=
  st ← for_each build_rows_step (end_events parsed) (mkExtract ∅ row_array keys);
  Ok (ex_rows st, ex_keys st).

(** What [csv.DictWriter] may raise. *)
Inductive written (A : Type) : Type :=
| Written (a : A)
| ValueError.
Arguments Written {A} a.
Arguments ValueError {A}.

(** [DictWriter._dict_to_list]: [ValueError] for a key that is no field
    name, otherwise one field per field name, [''] where the dict has no
    entry.  The keys are [str] in the extraction script and [str] or
    [None] in the rewriting script. *)
Definition dict_to_list `{Countable K} (fieldnames : list K)
    (rowdict : gmap K (option string)) : written (list (option string)) :=
  if decide (map_Forall (fun k _ => k ∈ fieldnames) rowdict)
  then Written ((fun k => default (Some "") (rowdict !! k)) <$> fieldnames)
  else ValueError.

(** [DictWriter.writerows]: the rows in order, up to the first that
    raises. *)
Fixpoint writerows (fieldnames : list string) (rowdicts : list Row)
    : written (list (list (option string))) :=
  match rowdicts with
  | [] => Written []
  | rowdict :: rest =>
      match dict_to_list fieldnames rowdict with
      | Written line =>
          match writerows fieldnames rest with
          | Written lines => Written (line :: lines)
          | ValueError => ValueError
          end
      | ValueError => ValueError
      end
  end.

(** [write_rows(row_array)]: the header and the lines handed to the CSV
    writer. *)
Definition write_rows (row_array : list Row) (keys : list string)
    : written (list string * list (list (option string))) :=
  let fieldnames := odict_set "OBS_VALUE" keys in
  match writerows fieldnames row_array with
  | Written lines => Written (fieldnames, lines)
  | ValueError => ValueError
  end.

(** The events that close a row. *)
Definition closes_row (elem : Element) : Prop :=
  remove_xml_namespace (tag elem) = "ObsValue" \/
  (remove_xml_namespace (tag elem) = "Value" /\
   attrib elem !! "concept" = Some "OBS_STATUS").

#[global] Instance closes_row_dec elem : Decision (closes_row elem).
Proof. unfold closes_row. apply _. Defined.

(** The events the loop can read: a [Value] element with [concept] and
    [value], an [ObsValue] element with [value], or any other element. *)
Definition readable_event (elem : Element) : Prop :=
  (remove_xml_namespace (tag elem) = "Value" ->
   is_Some (attrib elem !! "concept") /\ is_Some (attrib elem !! "value")) /\
  (remove_xml_namespace (tag elem) = "ObsValue" ->
   is_Some (attrib elem !! "value")).

(** A small data file: two observations, the second one suppressed. *)
Definition generic_data : Element :=
  Examples.qualify "http://www.SDMX.org/generic"
    (Examples.el "DataSet" [] None
       [Examples.el "Series" [] None
          [Examples.el "SeriesKey" [] None
             [Examples.el "Value" [("concept", "GEO"); ("value", "01")] None [];
              Examples.el "Value" [("concept", "SEX"); ("value", "1")] None []];
           Examples.el "Obs" [] None
             [Examples.el "ObsValue" [("value", "35151728")] None []]];
        Examples.el "Series" [] None
          [Examples.el "SeriesKey" [] None
             [Examples.el "Value" [("concept", "GEO"); ("value", "01")] None [];
              Examples.el "Value" [("concept", "SEX"); ("value", "2")] None []];
           Examples.el "Obs" [] None
             [Examples.el "Attributes" [] None
                [Examples.el "Value" [("concept", "OBS_STATUS"); ("value", "x")] None []]]]]).

(** What one iteration of the loop of [build_rows] does when it does not
    raise. *)
Inductive step_outcome (st : Extract) (elem : Element) (st' : Extract) : Prop :=
| step_value k v :
    remove_xml_namespace (tag elem) = "Value" ->
    attrib elem !! "concept" = Some k -> attrib elem !! "value" = Some v ->
    k <> "OBS_STATUS" ->
    st' = mkExtract (<[k := Some v]> (ex_row st)) (ex_rows st)
                    (odict_set k (ex_keys st)) ->
    step_outcome st elem st'
| step_status v :
    remove_xml_namespace (tag elem) = "Value" ->
    attrib elem !! "concept" = Some "OBS_STATUS" ->
    attrib elem !! "value" = Some v ->
    st' = mkExtract ∅
            (append_row (ex_rows st) (<["OBS_STATUS" := Some v]> (ex_row st)) None)
            (odict_set "OBS_STATUS" (ex_keys st)) ->
    step_outcome st elem st'
| step_obs v :
    remove_xml_namespace (tag elem) = "ObsValue" ->
    attrib elem !! "value" = Some v ->
    st' = mkExtract ∅ (append_row (ex_rows st) (ex_row st) (Some v)) (ex_keys st) ->
    step_outcome st elem st'
| step_other :
    remove_xml_namespace (tag elem) <> "Value" ->
    remove_xml_namespace (tag elem) <> "ObsValue" ->
    st' = st ->
    step_outcome st elem st'.

(** The keys of every row, closed or under construction, are recorded. *)
Definition keys_recorded (st : Extract) : Prop :=
  (forall k, is_Some (ex_row st !! k) -> k ∈ ex_keys st) /\
  Forall (fun row : Row =>
            forall k, is_Some (row !! k) -> k ∈ odict_set "OBS_VALUE" (ex_keys st))
         (ex_rows st).

(** A [Value] element that names no concept. *)
Definition value_without_concept : Element :=
  Examples.el "DataSet" [] None
    [Examples.el "Series" [] None
       [Examples.el "Value" [("value", "01")] None [];
        Examples.el "ObsValue" [("value", "5")] None []]].

(** A series key read once, followed by two observations. *)
Definition series_events : list Element :=
  [Examples.el "Value" [("concept", "GEO"); ("value", "01")] None [];
   Examples.el "Value" [("concept", "SEX"); ("value", "1")] None []].

Definition first_obs : Element := Examples.el "ObsValue" [("value", "5")] None [].
Definition second_obs : Element := Examples.el "ObsValue" [("value", "7")] None [].

(** * The column names of [reshape_csv.py]

    [rename_column] is the one function of the script that does not go
    through pandas.  It is applied to column labels; a label that is a
    [str] is what is embedded ([str(column)] is then the label itself). *)

(** [str.lower] of one character (code points below 256): the letters A to
    Z and the capital letters of Latin-1, the multiplication sign
    excepted, move 32 places up. *)
Definition py_lower_char (a : ascii) : ascii :=
  let n := nat_of_ascii a in
  if (((65 <=? n) && (n <=? 90))
      || ((192 <=? n) && (n <=? 222) && negb (n =? 215)))%nat
  then ascii_of_nat (n + 32)
  else a.

Fixpoint lower (s : string) : string :=
  match s with
  | EmptyString => EmptyString
  | String a s' => String (py_lower_char a) (lower s')
  end.

(** [s.replace(old, new)] for a non-empty [old]: the occurrences of [old]
    are taken from left to right and do not overlap.  [skip] counts the
    characters of an occurrence just replaced that are still to be passed
    over. *)
Fixpoint replace_from (skip : nat) (old new s : string) : string :=
  match s with
  | EmptyString => EmptyString
  | String a s' =>
      match skip with
      | S n => replace_from n old new s'
      | O =>
          if String.prefix old s
          then new +:+ replace_from (String.length old - 1) old new s'
          else String a (replace_from 0 old new s')
      end
  end.

Definition replace (old new s : string) : string := replace_from 0 old new s.

(** [rename_column] *)
Definition rename_column (column : string) : string :=
  let column := lower (strip column) in
  let column := replace " ($)" "" column in
  let column := replace "$" "" column in
  let column := replace "total - " "all-" column in
  let column := replace " " "-" column in
  let column := replace "," "" column in
  column.

(** Every character of the string passes the test. *)
Fixpoint all_chars (P : ascii -> bool) (s : string) : bool :=
  match s with
  | EmptyString => true
  | String a s' => P a && all_chars P s'
  end.

Definition is_ascii_upper (a : ascii) : bool :=
  let n := nat_of_ascii a in ((65 <=? n) && (n <=? 90))%nat.

(** The character is not [c]. *)
Definition other_than (c a : ascii) : bool := negb (Ascii.eqb a c).

(** A label [rename_column] has nothing to do on: no blank at either end,
    no letter that [lower] changes, no space, comma or dollar sign. *)
Definition clean_label (s : string) : Prop :=
  starts_with_space s = false /\ ends_with_space s = false /\
  lower s = s /\
  char_in " " s = false /\ char_in "," s = false /\ char_in "$" s = false.

(** * The rewriting script [humanize_csv.py]

    [rebuild_csv] reads the coded CSV file with [csv.DictReader], asks the
    metadata for the name of every column and for the description of every
    cell, and writes the result with [csv.DictWriter].  The input is the
    list of records the CSV reader yields (one list of cells per line, the
    empty list for a blank line); the table handed to the CSV writer
    stands for the file written.  The lines written before an exception
    are lost with it. *)

Definition GEOGRAPHY_CODE : string := "Geography code".

(** [d[k] = v] on a dict, which keeps its keys in the order they came in. *)
Fixpoint odict_assign {V} (k : string) (v : V) (d : list (string * V))
    : list (string * V) :=
  match d with
  | [] => [(k, v)]
  | (k', v') :: d' =>
      if decide (k' = k) then (k, v) :: d' else (k', v') :: odict_assign k v d'
  end.

(** [d[k]] or [d.get(k)] *)
Fixpoint odict_lookup {V} (k : string) (d : list (string * V)) : option V :=
  match d with
  | [] => None
  | (k', v) :: d' => if decide (k' = k) then Some v else odict_lookup k d'
  end.

(** A line of the [DictReader]: the entries under the field names, in the
    order of [line.items()], a missing cell being [None]; and the entry
    under the key [None], which comes last and holds the cells a record has
    beyond the field names. *)
Record Line : Type := mkLine {
  ln_items : list (string * option string);
  ln_rest : option (list string)
}.

(** [DictReader.__next__], for a record that is not empty. *)
Definition reader_line (fieldnames row : list string) : Line :=
  let d := foldl (fun d kv => odict_assign kv.1 (Some kv.2) d) []
                 (zip fieldnames row) in
  let lf := length fieldnames in
  let lr := length row in
  if (lf <? lr)%nat then mkLine d (Some (drop lf row))
  else if (lr <? lf)%nat
       then mkLine (foldl (fun d key => odict_assign key None d) d
                          (drop lr fieldnames)) None
       else mkLine d None.

(** What the script may raise: an exception of the metadata, [TypeError]
    from [list(None)] when the input has no record at all, and
    [ValueError] from the [DictWriter]. *)
Inductive ScriptExn : Type :=
| Metadata (e : PyExn)
| TypeError
| WriterValueError.

Inductive outcome (A : Type) : Type :=
| Done (a : A)
| Failed (e : ScriptExn).
Arguments Done {A} a.
Arguments Failed {A} e.

(** One round of the dict comprehension.  Both calls are made for every
    item, and either may raise. *)
Definition humanize_item (m : SDMXMetadata)
    (new_line : gmap (option string) (option string))
    (item : string * option string)
    : result (gmap (option string) (option string)) :=
  name ← name_by_code m item.1;
  description ← description_by_code_level m item.1 item.2 false;
  Ok (<[name := description]> new_line).

(** The dict written for one line.  The key [None] of a line that has
    cells beyond the field names is no key of the name table:
    [name_by_code(None)] raises [KeyError]. *)
Definition humanize_line (m : SDMXMetadata) (line : Line)
    : result (gmap (option string) (option string)) :=
  new_line ← for_each (humanize_item m) (ln_items line) ∅;
  new_line ← match ln_rest line with
             | Some _ => Raise KeyError
             | None => Ok new_line
             end;
  match odict_lookup "GEO" (ln_items line) with
  | Some geo => Ok (<[Some GEOGRAPHY_CODE := geo]> new_line)
  | None => Ok new_line
  end.

(** The body of the loop over the lines, down to the fields written. *)
Definition rebuild_line (m : SDMXMetadata) (header : list string)
    (fieldnames : list (option string)) (row : list string)
    : outcome (list (option string)) :=
  match humanize_line m (reader_line header row) with
  | Raise e => Failed (Metadata e)
  | Ok new_line =>
      match dict_to_list fieldnames new_line with
      | Written fields => Done fields
      | ValueError => Failed WriterValueError
      end
  end.

Fixpoint rebuild_lines (m : SDMXMetadata) (header : list string)
    (fieldnames : list (option string)) (rows : list (list string))
    : outcome (list (list (option string))) :=
  match rows with
  | [] => Done []
  | row :: rest =>
      match rebuild_line m header fieldnames row with
      | Done fields =>
          match rebuild_lines m header fieldnames rest with
          | Done lines => Done (fields :: lines)
          | Failed e => Failed e
          end
      | Failed e => Failed e
      end
  end.

(** The list comprehension over the field names. *)
Fixpoint names_by_codes (m : SDMXMetadata) (header : list string)
    : result (list (option string)) :=
  match header with
  | [] => Ok []
  | x :: rest =>
      name ← name_by_code m x;
      names ← names_by_codes m rest;
      Ok (name :: names)
  end.

(** [rebuild_csv]: the header and the lines written.  The first record
    gives the field names; blank lines are passed over by the reader. *)
Definition rebuild_csv (m : SDMXMetadata) (records : list (list string))
    : outcome (list (option string) * list (list (option string))) :=
  match records with
  | [] => Failed TypeError
  | header :: rows =>
      match names_by_codes m header with
      | Raise e => Failed (Metadata e)
      | Ok names =>
          let fieldnames := Some GEOGRAPHY_CODE :: names in
          match rebuild_lines m header fieldnames
                  (filter (fun row => row <> []) rows) with
          | Done lines => Done (fieldnames, lines)
          | Failed e => Failed e
          end
      end
  end.

(** A census model with a geography and a coded file for it. *)
Definition geography : Element :=
  Examples.structure
    [Examples.named "CodeList" "CL_GEO" "Geography"
       [Examples.code "01" "Canada"; Examples.code "35" "Ontario"];
     Examples.named "CodeList" "CL_SEX" "Sex"
       [Examples.code "1" "Total"; Examples.code "2" "Male"]]
    [Examples.named "Concept" "GEO" "Geography" [];
     Examples.named "Concept" "SEX" "Sex" [];
     Examples.named "Concept" "OBS_VALUE" "Observation" []]
    [Examples.el "Dimension" [("conceptRef", "GEO"); ("codelist", "CL_GEO")] None [];
     Examples.el "Dimension" [("conceptRef", "SEX"); ("codelist", "CL_SEX")] None [];
     Examples.el "PrimaryMeasure" [("conceptRef", "OBS_VALUE")] None []].

Definition geography_model : SDMXMetadata := Eval vm_compute in
  match init_from_root geography with
  | Ok m => m
  | Raise _ => mkSDMXMetadata "" [] [] ∅ ∅ ∅ ∅ ∅
  end.

Definition coded_records : list (list string) :=
  [["GEO"; "SEX"; "OBS_VALUE"];
   ["35"; "2"; "6600000"];
   [];
   ["01"; "1"]].

(** * Properties *)

(** ** The result monad and the loops *)

Lemma bind_Ok {A B} (r : result A) (f : A -> result B) (b : B) :
  r ≫= f = Ok b -> exists a, r = Ok a /\ f a = Ok b.
Proof. destruct r as [a|e]; [eauto | discriminate]. Qed.

Lemma getitem_Ok `{Countable K} {V} (d : gmap K V) k v :
  getitem d k = Ok v <-> d !! k = Some v.
Proof. unfold getitem. destruct (d !! k); split; congruence. Qed.

Lemma getitem_missing `{Countable K} {V} (d : gmap K V) k :
  d !! k = None -> getitem d k = Raise KeyError.
Proof. unfold getitem. by intros ->. Qed.

Lemma deref_Ok {A} (o : option A) a : deref o = Ok a <-> o = Some a.
Proof. destruct o; simpl; split; congruence. Qed.

Section Loops.
Context {A S : Type} (body : S -> A -> result S).

Lemma for_each_app l1 l2 s :
  for_each body (l1 ++ l2) s = for_each body l1 s ≫= for_each body l2.
Proof.
  revert s. induction l1 as [|x l1 IH]; intros s; simpl; [done|].
  destruct (body s x); simpl; [apply IH | done].
Qed.

(** Loop invariant over the part of the list already visited. *)
Lemma for_each_invariant (P : list A -> S -> Prop) l s r :
  P [] s ->
  (forall pre x s1 s2, P pre s1 -> body s1 x = Ok s2 -> P (pre ++ [x]) s2) ->
  for_each body l s = Ok r -> P l r.
Proof.
  intros H0 Hstep.
  cut (forall pre s1, P pre s1 -> for_each body l s1 = Ok r -> P (pre ++ l) r).
  { intros Hc. apply (Hc [] s H0). }
  induction l as [|x l IH]; intros pre s1 HP Hrun; simpl in Hrun.
  - rewrite app_nil_r. congruence.
  - apply bind_Ok in Hrun as (s2 & Hb & Hrun).
    replace (pre ++ x :: l) with ((pre ++ [x]) ++ l) by by rewrite <- app_assoc.
    eapply IH; eauto.
Qed.

(** A property kept by every iteration survives the loop. *)
Lemma for_each_preserves (P : S -> Prop) l s r :
  P s ->
  (forall x s1 s2, x ∈ l -> P s1 -> body s1 x = Ok s2 -> P s2) ->
  for_each body l s = Ok r -> P r.
Proof.
  revert s. induction l as [|x l IH]; intros s HP Hstep Hrun; simpl in Hrun.
  - congruence.
  - apply bind_Ok in Hrun as (s2 & Hb & Hrun).
    apply (IH s2); [ | | done].
    + eapply Hstep; [constructor | done | done].
    + intros y t1 t2 Hy. apply Hstep. by constructor.
Qed.

(** The loop ends without an exception when no iteration raises. *)
Lemma for_each_total l s :
  (forall x s1, x ∈ l -> exists s2, body s1 x = Ok s2) ->
  exists r, for_each body l s = Ok r.
Proof.
  revert s. induction l as [|x l IH]; intros s Hstep; simpl; [eauto|].
  destruct (Hstep x s) as [s2 ->]; [constructor|]. simpl.
  apply IH. intros y t Hy. apply Hstep. by constructor.
Qed.
End Loops.

(** ** The element tree *)

(** Induction on an element with the property known for every child. *)
Lemma Element_tree_ind (P : Element -> Prop) :
  (forall t a x cs, Forall P cs -> P (Elem t a x cs)) ->
  forall e, P e.
Proof.
  intros Hnode. fix IH 1. intros [t a x cs]. apply Hnode.
  induction cs as [|c cs IHcs]; constructor; [apply IH | apply IHcs].
Qed.

Lemma flat_map_map_commute {A B} (f : A -> B) (g : A -> list A) (h : B -> list B) l :
  Forall (fun a => h (f a) = map f (g a)) l ->
  flat_map h (map f l) = map f (flat_map g l).
Proof.
  induction 1 as [|a l Ha _ IH]; simpl; [done|].
  by rewrite Ha, IH, map_app.
Qed.

Lemma iter_load_xml e : iter (load_xml e) = map load_xml (iter e).
Proof.
  induction e as [t a x cs IH] using Element_tree_ind. simpl. f_equal.
  by apply flat_map_map_commute.
Qed.

Lemma descendants_load_xml e :
  descendants (load_xml e) = map load_xml (descendants e).
Proof.
  destruct e as [t a x cs]. unfold descendants. simpl.
  apply flat_map_map_commute, Forall_forall. intros c _. apply iter_load_xml.
Qed.

Lemma tag_load_xml e : tag (load_xml e) = remove_xml_namespace (tag e).
Proof. by destruct e. Qed.

(** ** Namespace stripping *)

Lemma split_once_absent c s : char_in c s = false -> split_once c s = [s].
Proof.
  induction s as [|a s IH]; simpl; [done|].
  destruct (Ascii.eqb a c); [done|]. by intros ->%IH.
Qed.

Lemma split_once_first c p r :
  char_in c p = false -> split_once c (p +:+ String c r) = [p; r].
Proof.
  induction p as [|a p IH]; simpl.
  - by rewrite Ascii.eqb_refl.
  - destruct (Ascii.eqb a c); [done|]. by intros ->%IH.
Qed.

Lemma char_in_app c p r :
  char_in c (p +:+ r) = char_in c p || char_in c r.
Proof.
  induction p as [|a p IH]; simpl; [done|]. by destruct (Ascii.eqb a c).
Qed.

Lemma remove_xml_namespace_after_brace p r :
  char_in "}" p = false -> remove_xml_namespace (p +:+ String "}" r) = r.
Proof.
  intros Hp. unfold remove_xml_namespace.
  rewrite char_in_app, Hp. simpl. by rewrite split_once_first.
Qed.

Lemma remove_xml_namespace_plain t :
  char_in "}" t = false -> remove_xml_namespace t = t.
Proof. unfold remove_xml_namespace. by intros ->. Qed.

(** C8. The loader returns the whole parsed tree, element for element, with
    each tag stripped of its namespace: a tag [{namespace}Name] becomes
    [Name], everything up to and including the first closing brace being
    removed, and a tag without a closing brace is left as it is. *)
Theorem load_xml_strips_namespaces :
  (forall parsed, stripped parsed (load_xml parsed)) /\
  (forall parsed,
      map tag (iter (load_xml parsed))
      = map (fun e => remove_xml_namespace (tag e)) (iter parsed)) /\
  (forall ns name,
      char_in "}" ns = false ->
      remove_xml_namespace ("{" +:+ ns +:+ "}" +:+ name) = name) /\
  (forall p r,
      char_in "}" p = false -> remove_xml_namespace (p +:+ String "}" r) = r) /\
  (forall t, char_in "}" t = false -> remove_xml_namespace t = t).
Proof.
  repeat split.
  - induction parsed as [t a x cs IH] using Element_tree_ind. simpl.
    constructor. induction IH; simpl; by constructor.
  - intros parsed. rewrite iter_load_xml, map_map.
    apply map_ext. intros e. apply tag_load_xml.
  - intros ns name Hns.
    change ("{" +:+ ns +:+ "}" +:+ name) with (String "{" ns +:+ String "}" name).
    by apply remove_xml_namespace_after_brace.
  - apply remove_xml_namespace_after_brace.
  - apply remove_xml_namespace_plain.
Qed.

Lemma load_xml_strips_namespaces_witness :
  remove_xml_namespace "{www.plotandscatter.com}TagName" = "TagName" /\
  remove_xml_namespace "a}b}c" = "b}c" /\
  remove_xml_namespace "TagName" = "TagName" /\
  load_xml Examples.census_parsed = Examples.census.
Proof.
  destruct load_xml_strips_namespaces as (_ & _ & Hq & Hp & Hn).
  split; [exact (Hq "www.plotandscatter.com" "TagName" eq_refl)|].
  split; [exact (Hp "a" "b}c" eq_refl)|].
  split; [exact (Hn "TagName" eq_refl)|].
  vm_compute. reflexivity.
Defined.

Example strip_examples :
  strip "   75 years and over" = "75 years and over" /\
  strip "  a b  " = "a b" /\
  strip "   " = "" /\
  remove_xml_namespace "{a}{b}c" = "{b}c".
Proof. by vm_compute. Qed.

(** ** Construction: the primary measure *)

Lemma findall_descendants_load_xml t parsed :
  findall_descendants t (load_xml parsed)
  = map load_xml
      (filter (fun d => remove_xml_namespace (tag d) = t) (descendants parsed)).
Proof.
  unfold findall_descendants. rewrite descendants_load_xml.
  induction (descendants parsed) as [|d ds IH]; [done|].
  cbn [map]. rewrite !filter_cons, tag_load_xml.
  case_decide; cbn [map]; by rewrite IH.
Qed.

(** C7. When no element of the document is a [PrimaryMeasure] (whatever
    its namespace), construction raises at [None.attrib] and returns no
    instance.  The root itself is never searched, so it need not be
    excluded. *)
Theorem init_without_primary_measure parsed :
  Forall (fun d => remove_xml_namespace (tag d) <> "PrimaryMeasure")
         (descendants parsed) ->
  init parsed = Raise AttributeError.
Proof.
  intros Hnone. unfold init, init_from_root, load_primary_measure, find_descendant.
  rewrite findall_descendants_load_xml.
  replace (filter _ (descendants parsed)) with (@nil Element); [done|].
  symmetry. induction Hnone as [|d ds Hd _ IH]; [done|].
  rewrite filter_cons. by case_decide.
Qed.

Lemma init_without_primary_measure_witness :
  init no_measure = Raise AttributeError.
Proof.
  apply init_without_primary_measure.
  vm_compute. repeat constructor; discriminate.
Defined.

(** ** Queries: the passthrough branches *)

(** C4. An empty coded value is returned as it is for every concept code,
    and every value asked for the primary measure is returned as it is. *)
Theorem description_passthrough (m : SDMXMetadata) :
  (forall code, description_by_code_level m code (Some "") false = Ok (Some "")) /\
  (forall v, description_by_code_level m (primary_measure_code m) v false = Ok v).
Proof.
  split; [done|]. intros v.
  unfold description_by_code_level, is_primary_measure_code.
  rewrite bool_decide_eq_true_2 by done. by destruct (truthy v).
Qed.

(** On the lookup branch [trim] does strip the description found. *)
Lemma description_trimmed_on_lookup (m : SDMXMetadata) code v levels d :
  v <> "" ->
  code <> primary_measure_code m ->
  code_levels m !! code = Some levels ->
  levels !! v = Some (Some d) ->
  description_by_code_level m code (Some v) true = Ok (Some (strip d)).
Proof.
  intros Hv Hpm Hlevels Hd.
  unfold description_by_code_level, is_primary_measure_code.
  rewrite bool_decide_eq_false_2 by done.
  destruct v as [|a v]; [done|]. simpl.
  unfold getitem. rewrite Hlevels. simpl. by rewrite Hd.
Qed.

(** C9. With [trim] set, a value asked for the primary measure comes back
    exactly, its leading and trailing blanks included; the empty and the
    missing value come back as they are too.  Stripping happens on the
    lookup branch only ([description_trimmed_on_lookup]). *)
Theorem trim_not_applied_on_passthrough (m : SDMXMetadata) :
  (forall v, description_by_code_level m (primary_measure_code m) v true = Ok v) /\
  (forall code, description_by_code_level m code (Some "") true = Ok (Some "")) /\
  (forall code, description_by_code_level m code None true = Ok None).
Proof.
  split; [|done]. intros v.
  unfold description_by_code_level, is_primary_measure_code.
  rewrite bool_decide_eq_true_2 by done. by destruct (truthy v).
Qed.

(** C10. An empty coded value never raises, whatever the code: the test on
    the value comes first, before the primary measure is compared and
    before any dict is read.  This includes a code that is neither a
    discovered concept nor the primary measure. *)
Theorem empty_value_never_raises (m : SDMXMetadata) (code : string) (trim : bool) :
  description_by_code_level m code (Some "") trim = Ok (Some "") /\
  description_by_code_level m code None trim = Ok None.
Proof. done. Qed.

(** ** Construction: what a finished [__init__] went through *)

Lemma init_from_root_Ok root m :
  init_from_root root = Ok m ->
  exists refs names,
    load_primary_measure root = Ok (primary_measure_code m) /\
    for_each concept_ref_step (findall_keyfamily_refs root) no_refs = Ok refs /\
    for_each (concept_name_step root) (cr_codes refs) no_names = Ok names /\
    load_code_levels root refs = Ok (code_levels m) /\
    concept_codes m = cr_codes refs /\
    concept_codelist_keys m = cr_codelist_keys refs /\
    concept_code_to_codelist_key m = cr_code_to_codelist_key refs /\
    codelist_key_to_concept_code m = cr_codelist_key_to_code refs /\
    concept_code_to_name m = cn_code_to_name names /\
    name_to_concept_code m = cn_name_to_code names.
Proof.
  unfold init_from_root, load_concepts. intros H.
  apply bind_Ok in H as (pm & Hpm & H).
  apply bind_Ok in H as ([refs names] & Hc & H).
  apply bind_Ok in Hc as (refs' & Hrefs & Hc).
  apply bind_Ok in Hc as (names' & Hnames & Hc).
  apply bind_Ok in H as (levels & Hlevels & H).
  injection Hc as <- <-. injection H as <-. simpl.
  exists refs', names'. by repeat split.
Qed.

(** ** The name tables *)

Lemma names_consistent_init root : names_consistent root [] no_names.
Proof.
  split; simpl.
  - intros c Hc. by apply elem_of_nil in Hc.
  - intros c n. by rewrite lookup_empty.
  - intros c n. by rewrite lookup_empty.
  - intros n c. by rewrite lookup_empty.
Qed.

Lemma names_consistent_step root visited st code st' :
  names_consistent root visited st ->
  concept_name_step root st code = Ok st' ->
  names_consistent root (visited ++ [code]) st'.
Proof.
  intros [Hv Hd Hi Hb]. unfold concept_name_step. intros H.
  apply bind_Ok in H as (name & Hname & H). injection H as <-.
  split; simpl.
  - intros c [Hc | ->%list_elem_of_singleton]%elem_of_app.
    + destruct (decide (code = c)) as [->|Hne].
      * rewrite lookup_insert_eq. eauto.
      * rewrite lookup_insert_ne by done. auto.
    + rewrite lookup_insert_eq. eauto.
  - intros c n. destruct (decide (code = c)) as [->|Hne].
    + rewrite lookup_insert_eq. congruence.
    + rewrite lookup_insert_ne by done. auto.
  - intros c n Hc. destruct (decide (name = n)) as [->|Hne].
    + rewrite lookup_insert_eq. eauto.
    + rewrite lookup_insert_ne by done.
      destruct (decide (code = c)) as [->|Hnc].
      * rewrite lookup_insert_eq in Hc. congruence.
      * rewrite lookup_insert_ne in Hc by done. eauto.
  - intros n c. destruct (decide (name = n)) as [->|Hne].
    + rewrite lookup_insert_eq. intros [= <-]. by rewrite lookup_insert_eq.
    + rewrite lookup_insert_ne by done. intros Hn.
      destruct (decide (code = c)) as [->|Hnc].
      * (* the name of [code] was already [n]: the document gives one name *)
        apply Hb, Hd in Hn. congruence.
      * rewrite lookup_insert_ne by done. auto.
Qed.

Lemma names_consistent_loop root codes names :
  for_each (concept_name_step root) codes no_names = Ok names ->
  names_consistent root codes names.
Proof.
  apply (for_each_invariant _ (names_consistent root)).
  - apply names_consistent_init.
  - intros pre x s1 s2. apply names_consistent_step.
Qed.
(** C5. For a concept code found during construction the three lookups
    succeed, and going from the name to a code and back gives the name
    again, whether or not other codes share that name. *)
Theorem name_round_trip root m c :
  init_from_root root = Ok m ->
  c ∈ concept_codes m ->
  exists n,
    name_by_code m c = Ok n /\
    (c' ← code_by_name m n; name_by_code m c') = Ok n /\
    (n' ← name_by_code m c; c' ← code_by_name m n'; name_by_code m c')
    = name_by_code m c.
Proof.
  intros (refs & names & _ & _ & Hnames & _ & Hcodes & _ & _ & _ & Hc2n & Hn2c)%init_from_root_Ok Hc.
  apply names_consistent_loop in Hnames as [Hv _ Hi Hb].
  rewrite Hcodes in Hc. destruct (Hv c Hc) as [n Hn].
  destruct (Hi c n Hn) as [c' Hc']. pose proof (Hb n c' Hc') as Hback.
  assert (Hfirst : name_by_code m c = Ok n).
  { unfold name_by_code. rewrite Hc2n. by apply getitem_Ok. }
  assert (Hrest : (c' ← code_by_name m n; name_by_code m c') = Ok n).
  { unfold code_by_name, name_by_code. rewrite Hn2c, Hc2n.
    apply getitem_Ok in Hc' as ->. simpl. by apply getitem_Ok. }
  exists n. split; [done|]. split; [done|].
  rewrite Hfirst. simpl. exact Hrest.
Qed.

Lemma name_round_trip_witness :
  exists n,
    name_by_code shared_name_model "GEO" = Ok n /\
    (c' ← code_by_name shared_name_model n; name_by_code shared_name_model c') = Ok n /\
    (n' ← name_by_code shared_name_model "GEO";
     c' ← code_by_name shared_name_model n'; name_by_code shared_name_model c')
    = name_by_code shared_name_model "GEO".
Proof.
  apply (name_round_trip shared_name shared_name_model "GEO").
  - vm_compute. reflexivity.
  - vm_compute. constructor.
Defined.

(** ** The concept references of the key family *)

Lemma keyfamily_ref_has_code root e :
  e ∈ findall_keyfamily_refs root -> is_Some (attrib e !! "conceptRef").
Proof.
  unfold findall_keyfamily_refs.
  intros (kf & He & _)%list_elem_of_bind.
  by apply list_elem_of_filter in He as [? _].
Qed.

Lemma refs_consistent_init : refs_consistent [] no_refs.
Proof. by split. Qed.

Lemma refs_consistent_step visited st e st' :
  refs_consistent visited st ->
  concept_ref_step st e = Ok st' ->
  refs_consistent (visited ++ [e]) st'.
Proof.
  intros [Hcodes Hfwd Hbwd Hlast]. unfold concept_ref_step. intros H.
  apply bind_Ok in H as (code & Hcode%getitem_Ok & H).
  assert (Hcodes' : cr_codes st ++ [code] = key_family_codes (visited ++ [e])).
  { unfold key_family_codes. rewrite omap_app. simpl. rewrite Hcode.
    by rewrite Hcodes. }
  destruct (attrib e !! "codelist") as [key|]; injection H as <-.
  - split; simpl.
    + done.
    + intros c k. destruct (decide (code = c)) as [->|Hne].
      * intros _. apply elem_of_app. right. by apply list_elem_of_singleton.
      * rewrite lookup_insert_ne by done. intros Hc.
        apply elem_of_app. left. eauto.
    + intros k c. destruct (decide (key = k)) as [->|Hne].
      * rewrite lookup_insert_eq. intros [= <-]. rewrite lookup_insert_eq. eauto.
      * rewrite lookup_insert_ne by done. intros Hk.
        destruct (decide (code = c)) as [->|Hnc].
        -- rewrite lookup_insert_eq. eauto.
        -- rewrite lookup_insert_ne by done. eauto.
    + intros c k. destruct (decide (code = c)) as [->|Hnc].
      * rewrite lookup_insert_eq. intros [= <-] _.
        exists (cr_codelist_keys st), []. split; [done|].
        intros k' Hk'. by apply elem_of_nil in Hk'.
      * rewrite lookup_insert_ne by done. intros Hc.
        destruct (decide (key = k)) as [->|Hnk].
        { rewrite lookup_insert_eq. congruence. }
        rewrite lookup_insert_ne by done. intros Hk.
        destruct (Hlast c k Hc Hk) as (before & after & Hkeys & Hafter).
        exists before, (after ++ [key]). split.
        { rewrite Hkeys. by rewrite <- app_assoc. }
        intros k' [Hk' | ->%list_elem_of_singleton]%elem_of_app.
        -- destruct (decide (key = k')) as [->|Hnk'].
           ++ rewrite lookup_insert_eq. congruence.
           ++ rewrite lookup_insert_ne by done. auto.
        -- rewrite lookup_insert_eq. congruence.
  - split; simpl; try done.
    intros c k Hc. apply elem_of_app. left. eauto.
Qed.

Lemma refs_consistent_loop refs st :
  for_each concept_ref_step refs no_refs = Ok st -> refs_consistent refs st.
Proof.
  apply (for_each_invariant _ refs_consistent).
  - apply refs_consistent_init.
  - intros pre x s1 s2. apply refs_consistent_step.
Qed.

(** The first loop raises on no reference the path selected: each carries
    [conceptRef]. *)
Lemma concept_refs_total root :
  exists refs,
    for_each concept_ref_step (findall_keyfamily_refs root) no_refs = Ok refs.
Proof.
  apply for_each_total. intros e st [code Hcode]%keyfamily_ref_has_code.
  unfold concept_ref_step, getitem. rewrite Hcode. simpl.
  destruct (attrib e !! "codelist"); eauto.
Qed.

(** ** Duplicate concept codes *)

(** C3, as amended.  [__load_concepts] has no test for a concept code that
    occurs twice: it finishes as soon as every code referred to has a
    [Concept] definition with a [Name] child, and it lists the codes one
    per reference, in document order, a repeated code as often as it is
    referred to. *)
Theorem load_concepts_keeps_duplicates root :
  (forall c, c ∈ key_family_codes (findall_keyfamily_refs root) ->
             exists n, concept_name root c = Ok n) ->
  exists refs names,
    load_concepts root = Ok (refs, names) /\
    cr_codes refs = key_family_codes (findall_keyfamily_refs root).
Proof.
  intros Hnamed. unfold load_concepts.
  destruct (concept_refs_total root) as [refs Hrefs]. rewrite Hrefs. simpl.
  pose proof (rc_codes _ _ (refs_consistent_loop _ _ Hrefs)) as Hcodes.
  destruct (for_each_total (concept_name_step root) (cr_codes refs) no_names)
    as [names Hnames].
  { intros c st Hc. rewrite Hcodes in Hc.
    destruct (Hnamed c Hc) as [n Hn].
    unfold concept_name_step. rewrite Hn. simpl. eauto. }
  rewrite Hnames. simpl. eauto.
Qed.

Lemma load_concepts_keeps_duplicates_witness :
  exists refs names,
    load_concepts duplicate_codes = Ok (refs, names) /\
    cr_codes refs = ["SEX"; "SEX"; "OBS_VALUE"].
Proof.
  apply (load_concepts_keeps_duplicates duplicate_codes).
  intros c Hc. vm_compute in Hc.
  repeat (apply elem_of_cons in Hc as [-> | Hc]; [eexists; vm_compute; reflexivity|]).
  by apply elem_of_nil in Hc.
Defined.

(** Construction goes through on that document: nothing is raised, the
    code is listed twice and the later codelist key has replaced the
    earlier one. *)
Lemma duplicate_codes_not_rejected :
  exists m,
    init_from_root duplicate_codes = Ok m /\
    concept_codes m = ["SEX"; "SEX"; "OBS_VALUE"] /\
    concept_code_to_codelist_key m !! "SEX" = Some "CL_GENDER".
Proof. eexists. split; [vm_compute; reflexivity|]. by vm_compute. Qed.

(** ** The code levels *)

Section CodeLevels.
Variable root : Element.
Variable key_to_code : gmap string string.

Lemma code_list_step_skips levels k :
  code_list_missing_or_childless root k ->
  code_list_step root key_to_code levels k = Ok levels.
Proof.
  unfold code_list_step. intros [-> | (cl & -> & Hcl)]; simpl; [done|].
  unfold elem_truthy. by rewrite Hcl.
Qed.

Lemma code_list_step_Ok levels k levels' :
  code_list_step root key_to_code levels k = Ok levels' ->
  (code_list_missing_or_childless root k /\ levels' = levels) \/
  exists code_list c lv,
    find_by_id "CodeList" k root = Ok (Some code_list) /\
    elem_truthy code_list = true /\
    key_to_code !! k = Some c /\
    for_each code_level_step (findall_children "Code" code_list) ∅ = Ok lv /\
    levels' = <[c := lv]> levels.
Proof.
  unfold code_list_step, code_list_missing_or_childless. intros H.
  apply bind_Ok in H as (found & Hfound & H). rewrite Hfound.
  destruct found as [cl|]; [|injection H as <-; auto].
  destruct (elem_truthy cl) eqn:Htruthy.
  - apply bind_Ok in H as (c & Hc%getitem_Ok & H).
    apply bind_Ok in H as (lv & Hlv & H). injection H as <-.
    right. exists cl, c, lv. by repeat split.
  - injection H as <-. left. split; [|done]. right. exists cl. split; [done|].
    unfold elem_truthy in Htruthy. by destruct (children cl).
Qed.

(** Every stored enumeration was read from a [CodeList] element that has
    children, found under a key that leads back to the concept. *)
Lemma code_levels_origin keys levels c lv :
  for_each (code_list_step root key_to_code) keys ∅ = Ok levels ->
  levels !! c = Some lv ->
  exists k code_list,
    k ∈ keys /\ key_to_code !! k = Some c /\
    find_by_id "CodeList" k root = Ok (Some code_list) /\
    elem_truthy code_list = true /\
    for_each code_level_step (findall_children "Code" code_list) ∅ = Ok lv.
Proof.
  intros Hrun. revert c lv.
  refine (for_each_invariant _
    (fun pre (s : gmap string (gmap string (option string))) =>
       forall c lv, s !! c = Some lv ->
       exists k code_list,
         k ∈ pre /\ key_to_code !! k = Some c /\
         find_by_id "CodeList" k root = Ok (Some code_list) /\
         elem_truthy code_list = true /\
         for_each code_level_step (findall_children "Code" code_list) ∅ = Ok lv)
    _ _ _ _ _ Hrun).
  - intros c lv. by rewrite lookup_empty.
  - intros pre k s1 s2 IH Hstep c lv Hc.
    assert (Hold : s1 !! c = Some lv ->
      exists k0 code_list, k0 ∈ pre ++ [k] /\ key_to_code !! k0 = Some c /\
        find_by_id "CodeList" k0 root = Ok (Some code_list) /\
        elem_truthy code_list = true /\
        for_each code_level_step (findall_children "Code" code_list) ∅ = Ok lv).
    { intros (k0 & cl & Hk0 & Hrest)%IH. exists k0, cl.
      split; [apply elem_of_app; by left | done]. }
    apply code_list_step_Ok in Hstep
      as [[_ ->] | (cl & c' & lv' & Hfind & Htruthy & Hkc & Hlv & ->)]; [auto|].
    destruct (decide (c' = c)) as [->|Hne].
    + rewrite lookup_insert_eq in Hc. injection Hc as ->.
      exists k, cl. split; [|done].
      apply elem_of_app. right. by apply list_elem_of_singleton.
    + rewrite lookup_insert_ne in Hc by done. auto.
Qed.

(** Keys that do not lead back to [c] leave the enumeration of [c] alone. *)
Lemma code_levels_untouched keys levels levels' c :
  (forall k, k ∈ keys -> key_to_code !! k <> Some c) ->
  for_each (code_list_step root key_to_code) keys levels = Ok levels' ->
  levels' !! c = levels !! c.
Proof.
  intros Hkeys.
  apply (for_each_preserves _ (fun s => s !! c = levels !! c)); [done|].
  intros k s1 s2 Hk Hs1 Hstep.
  apply code_list_step_Ok in Hstep
    as [[_ ->] | (cl & c' & lv' & _ & _ & Hkc & _ & ->)]; [done|].
  rewrite lookup_insert_ne; [done|]. intros ->. by apply (Hkeys k).
Qed.

End CodeLevels.

(** A [CodeList] element with zero [Code] children is not treated as a
    missing one when it has another child: an empty enumeration is stored
    for the concept, where the missing codelist stores none. *)
Lemma codelist_without_codes_is_stored :
  exists code_list m m',
    find_by_id "CodeList" "CL_AGE" codelist_without_codes = Ok (Some code_list) /\
    findall_children "Code" code_list = [] /\
    init_from_root codelist_without_codes = Ok m /\
    code_levels m !! "AGE" = Some ∅ /\
    code_levels_by_code m "AGE" = Ok (Some ∅) /\
    init_from_root codelist_undefined = Ok m' /\
    code_levels m' !! "AGE" = None /\
    code_levels_by_code m' "AGE" = Raise KeyError.
Proof.
  do 3 eexists.
  split; [vm_compute; reflexivity|]. split; [by vm_compute|].
  split; [vm_compute; reflexivity|]. split; [by vm_compute|].
  split; [by vm_compute|].
  split; [vm_compute; reflexivity|]. split; by vm_compute.
Qed.

(** C6, as amended.  During code-level discovery a codelist key that leads
    to no [CodeList] element, and equally one that leads to a [CodeList]
    element without any child element, raises nothing and stores nothing;
    a concept all of whose keys are of that kind has no stored enumeration
    in the finished model. *)
Theorem missing_and_childless_codelists_alike root :
  (forall key_to_code levels k,
      code_list_missing_or_childless root k ->
      code_list_step root key_to_code levels k = Ok levels) /\
  (forall m c,
      init_from_root root = Ok m ->
      (forall k, k ∈ concept_codelist_keys m ->
                 codelist_key_to_concept_code m !! k = Some c ->
                 code_list_missing_or_childless root k) ->
      code_levels m !! c = None).
Proof.
  split; [intros; by apply code_list_step_skips|].
  intros m c (refs & names & _ & _ & _ & Hlevels & _ & Hkeys & _ & Hrev & _)%init_from_root_Ok Hall.
  destruct (code_levels m !! c) as [lv|] eqn:Hc; [|done]. exfalso.
  unfold load_code_levels in Hlevels.
  destruct (code_levels_origin _ _ _ _ _ _ Hlevels Hc)
    as (k & cl & Hk & Hkc & Hfind & Htruthy & _).
  rewrite <- Hkeys in Hk. rewrite <- Hrev in Hkc.
  destruct (Hall k Hk Hkc) as [Hnone | (cl' & Hsome & Hchildless)]; [congruence|].
  assert (cl' = cl) as -> by congruence.
  unfold elem_truthy in Htruthy. by rewrite Hchildless in Htruthy.
Qed.

Lemma missing_and_childless_codelists_alike_witness :
  code_list_step codelist_undefined ∅ ∅ "CL_AGE" = Ok ∅ /\
  code_list_step codelist_childless ∅ ∅ "CL_AGE" = Ok ∅ /\
  code_levels codelist_childless_model !! "AGE" = None.
Proof.
  split; [|split].
  - apply (proj1 (missing_and_childless_codelists_alike codelist_undefined)).
    left. vm_compute. reflexivity.
  - apply (proj1 (missing_and_childless_codelists_alike codelist_childless)).
    right. eexists. split; [vm_compute; reflexivity | reflexivity].
  - apply (proj2 (missing_and_childless_codelists_alike codelist_childless)).
    + vm_compute. reflexivity.
    + intros k Hk _. vm_compute in Hk.
      apply elem_of_cons in Hk as [-> | Hk]; [|by apply elem_of_nil in Hk].
      right. eexists. split; [vm_compute; reflexivity | reflexivity].
Defined.

(** ** [code_levels_by_code] *)

(** The keys of [code_levels] are concept codes that carry a codelist key. *)
Lemma code_levels_keys root m c lv :
  init_from_root root = Ok m ->
  code_levels m !! c = Some lv ->
  c ∈ concept_codes m /\ is_Some (concept_code_to_codelist_key m !! c).
Proof.
  intros (refs & names & _ & Hrefs & _ & Hlevels & -> & _ & -> & _)%init_from_root_Ok Hc.
  destruct (code_levels_origin _ _ _ _ _ _ Hlevels Hc) as (k & _ & _ & Hkc & _).
  apply refs_consistent_loop in Hrefs as [_ Hfwd Hbwd _].
  destruct (Hbwd k c Hkc) as [k' Hk']. split; eauto.
Qed.

(** C2, as amended.  [code_levels_by_code] returns [None] for the primary
    measure alone.  For any other code it raises [KeyError] when no
    enumeration is stored under the code, which is so for a code that is
    not a discovered concept and just as well for a discovered concept
    that carries no codelist key; and it returns the stored mapping when
    there is one. *)
Theorem code_levels_by_code_cases root m :
  init_from_root root = Ok m ->
  code_levels_by_code m (primary_measure_code m) = Ok None /\
  (forall code, code <> primary_measure_code m ->
     code ∉ concept_codes m ->
     code_levels_by_code m code = Raise KeyError) /\
  (forall code, code <> primary_measure_code m ->
     concept_code_to_codelist_key m !! code = None ->
     code_levels_by_code m code = Raise KeyError) /\
  (forall code, code <> primary_measure_code m ->
     code_levels m !! code = None ->
     code_levels_by_code m code = Raise KeyError) /\
  (forall code levels, code <> primary_measure_code m ->
     code_levels m !! code = Some levels ->
     code_levels_by_code m code = Ok (Some levels)).
Proof.
  intros Hinit.
  assert (Hother : forall code, code <> primary_measure_code m ->
            code_levels_by_code m code
            = levels ← getitem (code_levels m) code; Ok (Some levels)).
  { intros code Hne. unfold code_levels_by_code, is_primary_measure_code.
    by rewrite bool_decide_eq_false_2. }
  assert (Hnone : forall code, code <> primary_measure_code m ->
            code_levels m !! code = None ->
            code_levels_by_code m code = Raise KeyError).
  { intros code Hne Hc. rewrite Hother by done. by rewrite getitem_missing. }
  split; [|split; [|split; [|split]]].
  - unfold code_levels_by_code, is_primary_measure_code.
    by rewrite bool_decide_eq_true_2.
  - intros code Hne Hcode. apply Hnone; [done|].
    destruct (code_levels m !! code) as [lv|] eqn:Hc; [|done].
    by destruct (code_levels_keys root m code lv Hinit Hc) as [? _].
  - intros code Hne Hkey. apply Hnone; [done|].
    destruct (code_levels m !! code) as [lv|] eqn:Hc; [|done].
    destruct (code_levels_keys root m code lv Hinit Hc) as [_ [k Hk]]. congruence.
  - exact Hnone.
  - intros code levels Hne Hc. rewrite Hother by done.
    apply getitem_Ok in Hc as ->. done.
Qed.

Lemma code_levels_by_code_cases_witness :
  code_levels_by_code geo_without_codelist_model "OBS_VALUE" = Ok None /\
  code_levels_by_code geo_without_codelist_model "INCOME" = Raise KeyError /\
  code_levels_by_code geo_without_codelist_model "GEO" = Raise KeyError /\
  code_levels_by_code geo_without_codelist_model "SEX"
  = Ok (Some {[ "1" := Some "Total" ]}).
Proof.
  destruct (code_levels_by_code_cases geo_without_codelist geo_without_codelist_model)
    as (Hpm & Hunknown & Hnokey & _ & Hstored).
  { vm_compute. reflexivity. }
  split; [exact Hpm|].
  split; [apply Hunknown; [discriminate|]|].
  { vm_compute. intros Hin.
    repeat (apply elem_of_cons in Hin as [Heq | Hin]; [discriminate Heq|]).
    by apply elem_of_nil in Hin. }
  split; [apply Hnokey; [discriminate | by vm_compute]|].
  apply Hstored; [discriminate | by vm_compute].
Defined.

(** A discovered concept without a codelist does not get [None]: the
    lookup in [code_levels] raises. *)
Lemma code_levels_by_code_raises_without_codelist :
  exists m,
    init_from_root geo_without_codelist = Ok m /\
    "GEO" ∈ concept_codes m /\
    "GEO" <> primary_measure_code m /\
    concept_code_to_codelist_key m !! "GEO" = None /\
    code_levels_by_code m "GEO" = Raise KeyError /\
    code_levels_by_code m "GEO" <> Ok None.
Proof.
  exists geo_without_codelist_model.
  split; [vm_compute; reflexivity|].
  split; [vm_compute; constructor|].
  split; [discriminate|]. split; [by vm_compute|].
  split; [by vm_compute | by vm_compute].
Qed.

(** ** Descriptions of coded values *)

(** The inner loop of [__load_code_levels]: each value met is stored with
    the description of a [Code] element carrying it. *)
Lemma code_levels_of_codes codes lv level v :
  for_each code_level_step codes ∅ = Ok lv ->
  level ∈ codes ->
  attrib level !! "value" = Some v ->
  exists level' d,
    level' ∈ codes /\ attrib level' !! "value" = Some v /\
    find_child "Description" level' = Some d /\ lv !! v = Some (text d).
Proof.
  intros Hrun. revert level v.
  refine (for_each_invariant _
    (fun pre (s : gmap string (option string)) =>
       forall level v, level ∈ pre -> attrib level !! "value" = Some v ->
       exists level' d,
         level' ∈ pre /\ attrib level' !! "value" = Some v /\
         find_child "Description" level' = Some d /\ s !! v = Some (text d))
    _ _ _ _ _ Hrun).
  - intros level v Hin. by apply elem_of_nil in Hin.
  - intros pre x s1 s2 IH Hstep level v Hin Hv. unfold code_level_step in Hstep.
    apply bind_Ok in Hstep as (vx & Hvx%getitem_Ok & Hstep).
    apply bind_Ok in Hstep as (dx & Hdx%deref_Ok & Hstep). injection Hstep as <-.
    destruct (decide (vx = v)) as [->|Hne].
    + exists x, dx. rewrite lookup_insert_eq. repeat split; try done.
      apply elem_of_app. right. by apply list_elem_of_singleton.
    + apply elem_of_app in Hin as [Hin | ->%list_elem_of_singleton]; [|congruence].
      destruct (IH level v Hin Hv) as (level' & d & Hin' & Hv' & Hd & Hs).
      exists level', d. rewrite lookup_insert_ne by done. repeat split; try done.
      apply elem_of_app. by left.
Qed.

(** The description of a recorded pair is returned for a concept whose
    codelist key still leads back to it, that is, when no concept referred
    to later in the key family carries the same key. *)
Lemma description_of_recorded_pair root m c k code_list level v :
  init_from_root root = Ok m ->
  concept_code_to_codelist_key m !! c = Some k ->
  codelist_key_to_concept_code m !! k = Some c ->
  find_by_id "CodeList" k root = Ok (Some code_list) ->
  level ∈ findall_children "Code" code_list ->
  attrib level !! "value" = Some v ->
  (forall level', level' ∈ findall_children "Code" code_list ->
                  attrib level' !! "value" = Some v -> level' = level) ->
  v <> "" ->
  c <> primary_measure_code m ->
  exists d,
    find_child "Description" level = Some d /\
    description_by_code_level m c (Some v) false = Ok (text d).
Proof.
  intros (refs & names & _ & Hrefs & _ & Hlevels & _ & _ & Hfwd & Hrev & _)%init_from_root_Ok
         Hck Hkc Hfind Hlevel Hv Hunique Hnonempty Hpm.
  rewrite Hfwd in Hck. rewrite Hrev in Hkc.
  apply refs_consistent_loop in Hrefs as [_ _ _ Hlast].
  destruct (Hlast c k Hck Hkc) as (before & after & Hkeys & Hafter).
  unfold load_code_levels in Hlevels. rewrite Hkeys, for_each_app in Hlevels.
  apply bind_Ok in Hlevels as (s1 & _ & Hlevels). simpl in Hlevels.
  apply bind_Ok in Hlevels as (s2 & Hstep & Hrest).
  apply (code_levels_untouched _ _ _ _ _ c Hafter) in Hrest.
  apply code_list_step_Ok in Hstep
    as [[[Hnone | (cl' & Hsome & Hchildless)] _]
       | (cl' & c' & lv & Hfind' & _ & Hkc' & Hlv & ->)].
  - congruence.
  - assert (cl' = code_list) as -> by congruence.
    apply list_elem_of_filter in Hlevel as [_ Hlevel].
    rewrite Hchildless in Hlevel. by apply elem_of_nil in Hlevel.
  - assert (cl' = code_list) as -> by congruence.
    assert (c' = c) as -> by congruence.
    rewrite lookup_insert_eq in Hrest.
    destruct (code_levels_of_codes _ _ _ _ Hlv Hlevel Hv)
      as (level' & d & Hin' & Hv' & Hd & Hstored).
    rewrite (Hunique level' Hin' Hv') in Hd. exists d. split; [done|].
    unfold description_by_code_level, is_primary_measure_code.
    rewrite bool_decide_eq_false_2 by done.
    destruct v as [|a v]; [done|]. simpl.
    unfold getitem. rewrite Hrest. simpl. by rewrite Hstored.
Qed.

Example description_of_recorded_pair_applies :
  exists d,
    find_child "Description" (Examples.code "2" "Male") = Some d /\
    description_by_code_level census_model "SEX" (Some "2") false = Ok (text d).
Proof.
  eapply (description_of_recorded_pair Examples.census census_model
            "SEX" "CL_SEX" _ (Examples.code "2" "Male") "2").
  - vm_compute. reflexivity.
  - by vm_compute.
  - by vm_compute.
  - vm_compute. reflexivity.
  - vm_compute. do 1 constructor. constructor.
  - by vm_compute.
  - intros level' Hin Hv. vm_compute in Hin.
    repeat (apply elem_of_cons in Hin as [-> | Hin];
            [first [reflexivity | by vm_compute in Hv]|]).
    by apply elem_of_nil in Hin.
  - discriminate.
  - discriminate.
Qed.

Example description_of_recorded_pair_census :
  exists m,
    init Examples.census_parsed = Ok m /\
    name_by_code m "SEX" = Ok (Some "Sex") /\
    description_by_code_level m "SEX" (Some "2") false = Ok (Some "Male") /\
    description_by_code_level m "SEX" (Some "9") false = Raise KeyError /\
    description_by_code_level m "OBS_VALUE" (Some "42.7") false = Ok (Some "42.7") /\
    description_by_code_level m "AGE" (Some "01") true = Ok (Some "75 years and over").
Proof. eexists. split; [vm_compute; reflexivity|]. by vm_compute. Qed.

(** C1.  On a document where two concepts share a codelist the description
    of a recorded pair is returned for the concept referred to last only:
    [__load_code_levels] goes from the codelist key back to one concept
    code, and the lookup for the other concept raises [KeyError]. *)
Theorem shared_codelist_loses_first_concept :
  exists m code_list,
    init_from_root shared_codelist = Ok m /\
    "REF_AREA" ∈ concept_codes m /\
    "REF_AREA" <> primary_measure_code m /\
    concept_code_to_codelist_key m !! "REF_AREA" = Some "CL_AREA" /\
    find_by_id "CodeList" "CL_AREA" shared_codelist = Ok (Some code_list) /\
    Examples.code "CA" "Canada" ∈ findall_children "Code" code_list /\
    description_by_code_level m "REF_AREA" (Some "CA") false = Raise KeyError /\
    description_by_code_level m "COUNTERPART_AREA" (Some "CA") false
    = Ok (Some "Canada").
Proof.
  do 2 eexists.
  split; [vm_compute; reflexivity|].
  split; [vm_compute; constructor|].
  split; [discriminate|]. split; [by vm_compute|].
  split; [vm_compute; reflexivity|].
  split; [vm_compute; constructor|].
  split; by vm_compute.
Qed.

(** * Further properties of the metadata model *)

(** ** The tables against the key family *)

(** The first loop of [__load_concepts], table by table. *)
Lemma concept_refs_tables refs st :
  for_each concept_ref_step refs no_refs = Ok st ->
  cr_codelist_keys st = key_family_codelist_keys refs /\
  (forall c, cr_code_to_codelist_key st !! c = last_codelist_key refs c) /\
  (forall k, cr_codelist_key_to_code st !! k = last_concept_code refs k).
Proof.
  apply (for_each_invariant _ (fun visited st =>
    cr_codelist_keys st = key_family_codelist_keys visited /\
    (forall c, cr_code_to_codelist_key st !! c = last_codelist_key visited c) /\
    (forall k, cr_codelist_key_to_code st !! k = last_concept_code visited k))).
  - by repeat split.
  - intros pre e s1 s2 (Hkeys & Hfwd & Hrev) Hstep.
    unfold concept_ref_step in Hstep.
    apply bind_Ok in Hstep as (code & Hcode%getitem_Ok & Hstep).
    unfold key_family_codelist_keys, last_codelist_key, last_concept_code.
    setoid_rewrite omap_app. simpl. rewrite Hcode.
    destruct (attrib e !! "codelist") as [key|] eqn:Hkey;
      injection Hstep as <-; simpl.
    + split; [by rewrite Hkeys|]. split.
      * intros c. destruct (decide (Some code = Some c)) as [[= ->]|Hne]; simpl.
        -- by rewrite lookup_insert_eq, last_snoc.
        -- rewrite lookup_insert_ne by congruence.
           rewrite app_nil_r. apply Hfwd.
      * intros k. destruct (decide (Some key = Some k)) as [[= ->]|Hne]; simpl.
        -- by rewrite lookup_insert_eq, last_snoc.
        -- rewrite lookup_insert_ne by congruence.
           rewrite app_nil_r. apply Hrev.
    + split; [by rewrite Hkeys, app_nil_r|]. split.
      * intros c. destruct (decide (Some code = Some c)); simpl;
          rewrite app_nil_r; apply Hfwd.
      * intros k. destruct (decide (None = Some k)); [done|]. simpl.
        rewrite app_nil_r. apply Hrev.
Qed.

(** X1. [codes()] of a constructed model is the list of the concept codes
    the key family refers to, one entry per reference and in document
    order, and the list of codelist keys is built the same way. *)
Theorem codes_in_document_order root m :
  init_from_root root = Ok m ->
  codes m = key_family_codes (findall_keyfamily_refs root) /\
  concept_codelist_keys m = key_family_codelist_keys (findall_keyfamily_refs root).
Proof.
  intros (refs & names & _ & Hrefs & _ & _ & Hcodes & Hkeys & _)%init_from_root_Ok.
  unfold codes. rewrite Hcodes, Hkeys. split.
  - apply (rc_codes _ _ (refs_consistent_loop _ _ Hrefs)).
  - by apply concept_refs_tables.
Qed.

Lemma codes_in_document_order_witness :
  codes census_model = ["SEX"; "AGE"; "OBS_VALUE"] /\
  concept_codelist_keys census_model = ["CL_SEX"; "CL_AGE"].
Proof.
  apply (codes_in_document_order Examples.census census_model).
  vm_compute. reflexivity.
Defined.

(** X2. Each of the two codelist tables keeps the last reference: a concept
    code leads to the codelist key of the last reference to it that carries
    one, and a codelist key leads to the concept code of the last reference
    that carries it. *)
Theorem codelist_tables_keep_last root m :
  init_from_root root = Ok m ->
  (forall c, concept_code_to_codelist_key m !! c
             = last_codelist_key (findall_keyfamily_refs root) c) /\
  (forall k, codelist_key_to_concept_code m !! k
             = last_concept_code (findall_keyfamily_refs root) k).
Proof.
  intros (refs & names & _ & Hrefs & _ & _ & _ & _ & -> & -> & _)%init_from_root_Ok.
  by apply concept_refs_tables in Hrefs as (_ & ? & ?).
Qed.

Lemma codelist_tables_keep_last_witness :
  concept_code_to_codelist_key duplicate_codes_model !! "SEX" = Some "CL_GENDER" /\
  codelist_key_to_concept_code duplicate_codes_model !! "CL_SEX" = Some "SEX".
Proof.
  destruct (codelist_tables_keep_last duplicate_codes duplicate_codes_model)
    as [Hfwd Hrev]; [vm_compute; reflexivity|].
  split; [exact (Hfwd "SEX") | exact (Hrev "CL_SEX")].
Defined.

(** ** The name tables against the document *)

(** The name table holds visited codes only. *)
Lemma names_only_visited root codes names c :
  for_each (concept_name_step root) codes no_names = Ok names ->
  is_Some (cn_code_to_name names !! c) -> c ∈ codes.
Proof.
  intros Hrun. revert c.
  refine (for_each_invariant _
    (fun visited (st : ConceptNames) =>
       forall c, is_Some (cn_code_to_name st !! c) -> c ∈ visited)
    _ _ _ _ _ Hrun).
  - intros c [n Hn]. simpl in Hn. by rewrite lookup_empty in Hn.
  - intros pre x s1 s2 IH Hstep c. unfold concept_name_step in Hstep.
    apply bind_Ok in Hstep as (name & _ & Hstep). injection Hstep as <-. simpl.
    rewrite elem_of_app, list_elem_of_singleton.
    destruct (decide (x = c)) as [->|Hne]; [auto|].
    rewrite lookup_insert_ne by done. auto.
Qed.

Lemma name_table_lookup root m :
  init_from_root root = Ok m ->
  (forall c, c ∈ codes m -> name_by_code m c = concept_name root c) /\
  (forall c, c ∉ codes m -> name_by_code m c = Raise KeyError).
Proof.
  intros (refs & names & _ & _ & Hnames & _ & Hcodes & _ & _ & _ & Hc2n & _)%init_from_root_Ok.
  unfold codes, name_by_code. rewrite Hcodes, Hc2n.
  pose proof (names_consistent_loop _ _ _ Hnames) as [Hv Hd _ _].
  split; intros c Hc.
  - destruct (Hv c Hc) as [n Hn]. rewrite (Hd c n Hn). by apply getitem_Ok.
  - apply getitem_missing.
    destruct (cn_code_to_name names !! c) as [n|] eqn:Hn; [|done].
    destruct Hc. eapply names_only_visited; eauto.
Qed.



(** After a code with the name [n] has been visited, the codes that follow
    leave the entry of [n] alone when none of them has that name. *)
Lemma name_index_untouched root post st st' n :
  (forall c, c ∈ post -> concept_name root c <> Ok n) ->
  for_each (concept_name_step root) post st = Ok st' ->
  cn_name_to_code st' !! n = cn_name_to_code st !! n.
Proof.
  intros Hpost.
  apply (for_each_preserves _
    (fun s => cn_name_to_code s !! n = cn_name_to_code st !! n)); [done|].
  intros c s1 s2 Hc Hs1 Hstep. unfold concept_name_step in Hstep.
  apply bind_Ok in Hstep as (name & Hname & Hstep). injection Hstep as <-. simpl.
  rewrite lookup_insert_ne; [done|]. intros ->. by apply (Hpost c).
Qed.

Lemma name_index_lookup root m n :
  init_from_root root = Ok m ->
  (forall c, code_by_name m n = Ok c -> c ∈ codes m /\ name_by_code m c = Ok n) /\
  ((forall c, c ∈ codes m -> name_by_code m c <> Ok n) ->
   code_by_name m n = Raise KeyError) /\
  (forall pre c post,
     codes m = pre ++ c :: post ->
     name_by_code m c = Ok n ->
     (forall c', c' ∈ post -> name_by_code m c' <> Ok n) ->
     code_by_name m n = Ok c).
Proof.
  intros Hinit.
  destruct (name_table_lookup root m Hinit) as [Hin _].
  destruct (init_from_root_Ok _ _ Hinit)
    as (refs & names & _ & _ & Hnames & _ & Hcodes & _ & _ & _ & Hc2n & Hn2c).
  pose proof (names_consistent_loop _ _ _ Hnames) as [Hv Hd _ Hb].
  assert (Hfound : forall c, code_by_name m n = Ok c ->
                             c ∈ codes m /\ name_by_code m c = Ok n).
  { intros c Hc. unfold code_by_name in Hc. rewrite Hn2c in Hc.
    apply getitem_Ok, Hb in Hc. split.
    - unfold codes. rewrite Hcodes. eapply names_only_visited; eauto.
    - unfold name_by_code. rewrite Hc2n. by apply getitem_Ok. }
  split; [exact Hfound|]. split.
  - intros Hnone. unfold code_by_name. apply getitem_missing.
    destruct (name_to_concept_code m !! n) as [c|] eqn:Hc; [|done].
    apply getitem_Ok in Hc. destruct (Hfound c Hc) as [Hcin Hcn].
    by destruct (Hnone c Hcin).
  - intros pre c post Hsplit Hcn Hpost.
    unfold codes in Hsplit, Hin. rewrite Hcodes in Hsplit.
    rewrite Hsplit, for_each_app in Hnames.
    apply bind_Ok in Hnames as (s1 & _ & Hnames). simpl in Hnames.
    apply bind_Ok in Hnames as (s2 & Hstep & Hrest).
    unfold concept_name_step in Hstep.
    apply bind_Ok in Hstep as (name & Hname & Hstep). injection Hstep as <-.
    assert (name = n) as ->.
    { rewrite Hin in Hcn; [congruence|].
      rewrite Hcodes, Hsplit. apply elem_of_app. right. constructor. }
    apply (name_index_untouched _ _ _ _ n) in Hrest.
    + simpl in Hrest. rewrite lookup_insert_eq in Hrest.
      unfold code_by_name. rewrite Hn2c. by apply getitem_Ok.
    + intros c' Hc'. rewrite <- Hin; [by apply Hpost|].
      rewrite Hcodes, Hsplit. apply elem_of_app. right. by constructor.
Qed.

(** X4. [code_by_name] of a constructed model: a code it returns is a code
    of the key family that has the name; it raises [KeyError] when no code
    of the key family has the name; and among several codes with the name
    it returns the one referred to last. *)
Theorem code_by_name_from_document root m n :
  init_from_root root = Ok m ->
  (forall c, code_by_name m n = Ok c -> c ∈ codes m /\ name_by_code m c = Ok n) /\
  ((forall c, c ∈ codes m -> name_by_code m c <> Ok n) ->
   code_by_name m n = Raise KeyError) /\
  (forall pre c post,
     codes m = pre ++ c :: post ->
     name_by_code m c = Ok n ->
     (forall c', c' ∈ post -> name_by_code m c' <> Ok n) ->
     code_by_name m n = Ok c).
Proof. exact (name_index_lookup root m n). Qed.

Lemma code_by_name_from_document_witness :
  (forall c, code_by_name shared_name_model (Some "Area") = Ok c ->
     c ∈ codes shared_name_model /\
     name_by_code shared_name_model c = Ok (Some "Area")) /\
  code_by_name shared_name_model (Some "Region") = Raise KeyError /\
  code_by_name shared_name_model (Some "Area") = Ok "POW".
Proof.
  destruct (code_by_name_from_document shared_name shared_name_model (Some "Area"))
    as (Hfound & _ & Hlast); [vm_compute; reflexivity|].
  destruct (code_by_name_from_document shared_name shared_name_model (Some "Region"))
    as (_ & Hnone & _); [vm_compute; reflexivity|].
  split; [exact Hfound|]. split.
  - apply Hnone. intros c Hc. vm_compute in Hc.
    repeat (apply elem_of_cons in Hc as [-> | Hc]; [by vm_compute|]).
    by apply elem_of_nil in Hc.
  - apply (Hlast ["GEO"] "POW" ["OBS_VALUE"]); [by vm_compute | by vm_compute |].
    intros c' ->%list_elem_of_singleton. by vm_compute.
Defined.

(** X5. When no two codes of the key family have the same name,
    [code_by_name] undoes [name_by_code] on every code of the key family. *)
Theorem code_by_name_inverts_name_by_code root m c n :
  init_from_root root = Ok m ->
  (forall c1 c2, c1 ∈ codes m -> c2 ∈ codes m ->
                 name_by_code m c1 = name_by_code m c2 -> c1 = c2) ->
  c ∈ codes m ->
  name_by_code m c = Ok n ->
  code_by_name m n = Ok c.
Proof.
  intros Hinit Hinj Hc Hn.
  destruct (name_index_lookup root m n Hinit) as (Hfound & _ & _).
  destruct (init_from_root_Ok _ _ Hinit)
    as (refs & names & _ & _ & Hnames & _ & _ & _ & _ & _ & Hc2n & Hn2c).
  pose proof (names_consistent_loop _ _ _ Hnames) as [_ _ Hi _].
  unfold name_by_code in Hn. rewrite Hc2n in Hn. apply getitem_Ok in Hn.
  destruct (Hi c n Hn) as [c' Hc'].
  assert (Hcode : code_by_name m n = Ok c').
  { unfold code_by_name. rewrite Hn2c. by apply getitem_Ok. }
  destruct (Hfound c' Hcode) as [Hc'in Hc'n].
  rewrite Hcode. f_equal. apply Hinj; [done | done |].
  rewrite Hc'n. unfold name_by_code. rewrite Hc2n. symmetry. by apply getitem_Ok.
Qed.

Lemma code_by_name_inverts_name_by_code_witness :
  code_by_name census_model (Some "Age") = Ok "AGE".
Proof.
  apply (code_by_name_inverts_name_by_code Examples.census census_model "AGE").
  - vm_compute. reflexivity.
  - intros c1 c2 H1 H2. vm_compute in H1, H2.
    repeat (apply elem_of_cons in H1 as [-> | H1]);
      try (by apply elem_of_nil in H1);
      repeat (apply elem_of_cons in H2 as [-> | H2]);
      try (by apply elem_of_nil in H2);
      first [reflexivity | vm_compute; discriminate].
  - vm_compute. do 1 constructor. constructor.
  - by vm_compute.
Defined.

(** ** The code levels against the document *)

(** Whatever the inner loop stores was read from a [Code] element. *)
Lemma code_levels_from_codes codes lv v d :
  for_each code_level_step codes ∅ = Ok lv ->
  lv !! v = Some d ->
  exists level description,
    level ∈ codes /\ attrib level !! "value" = Some v /\
    find_child "Description" level = Some description /\
    text description = d.
Proof.
  intros Hrun. revert v d.
  refine (for_each_invariant _
    (fun pre (s : gmap string (option string)) =>
       forall v d, s !! v = Some d ->
       exists level description,
         level ∈ pre /\ attrib level !! "value" = Some v /\
         find_child "Description" level = Some description /\
         text description = d)
    _ _ _ _ _ Hrun).
  - intros v d. by rewrite lookup_empty.
  - intros pre x s1 s2 IH Hstep v d Hv. unfold code_level_step in Hstep.
    apply bind_Ok in Hstep as (vx & Hvx%getitem_Ok & Hstep).
    apply bind_Ok in Hstep as (dx & Hdx%deref_Ok & Hstep). injection Hstep as <-.
    destruct (decide (vx = v)) as [->|Hne].
    + rewrite lookup_insert_eq in Hv. injection Hv as <-.
      exists x, dx. repeat split; try done.
      apply elem_of_app. right. by apply list_elem_of_singleton.
    + rewrite lookup_insert_ne in Hv by done.
      destruct (IH v d Hv) as (level & desc & Hin & Hrest).
      exists level, desc. split; [|done]. apply elem_of_app. by left.
Qed.

Lemma find_by_id_found t v root e :
  find_by_id t v root = Ok (Some e) ->
  e ∈ findall_descendants t root /\ attrib e !! "id" = Some v.
Proof.
  unfold find_by_id. destruct (char_in _ v); [done|]. intros [= Hhead].
  apply head_Some_elem_of, list_elem_of_filter in Hhead as [? ?]. done.
Qed.

Lemma code_levels_pair_origin root m c levels v d :
  init_from_root root = Ok m ->
  code_levels m !! c = Some levels ->
  levels !! v = Some d ->
  exists k code_list level description,
    k ∈ concept_codelist_keys m /\
    codelist_key_to_concept_code m !! k = Some c /\
    code_list ∈ findall_descendants "CodeList" root /\
    attrib code_list !! "id" = Some k /\
    level ∈ findall_children "Code" code_list /\
    attrib level !! "value" = Some v /\
    find_child "Description" level = Some description /\
    text description = d.
Proof.
  intros (refs & names & _ & _ & _ & Hlevels & _ & -> & _ & -> & _)%init_from_root_Ok Hc Hv.
  destruct (code_levels_origin _ _ _ _ _ _ Hlevels Hc)
    as (k & cl & Hk & Hkc & Hfind & _ & Hlv).
  destruct (code_levels_from_codes _ _ _ _ Hlv Hv) as (level & desc & Hin & Hval & Hd & Ht).
  apply find_by_id_found in Hfind as [Hcl Hid].
  exists k, cl, level, desc. by repeat split.
Qed.

(** X6. Every pair of [code_levels()] was read from the document: a coded
    value stored for a concept, with its description, is the [value] and
    the [Description] text of a [Code] child of a [CodeList] element whose
    [id] is a codelist key of the key family that leads back to the
    concept. *)
Theorem code_levels_recorded_in_document root m c levels v d :
  init_from_root root = Ok m ->
  code_levels m !! c = Some levels ->
  levels !! v = Some d ->
  exists k code_list level description,
    k ∈ concept_codelist_keys m /\
    codelist_key_to_concept_code m !! k = Some c /\
    code_list ∈ findall_descendants "CodeList" root /\
    attrib code_list !! "id" = Some k /\
    level ∈ findall_children "Code" code_list /\
    attrib level !! "value" = Some v /\
    find_child "Description" level = Some description /\
    text description = d.
Proof. exact (code_levels_pair_origin root m c levels v d). Qed.

Lemma code_levels_recorded_in_document_witness :
  exists k code_list level description,
    k ∈ concept_codelist_keys census_model /\
    codelist_key_to_concept_code census_model !! k = Some "SEX" /\
    code_list ∈ findall_descendants "CodeList" Examples.census /\
    attrib code_list !! "id" = Some k /\
    level ∈ findall_children "Code" code_list /\
    attrib level !! "value" = Some "3" /\
    find_child "Description" level = Some description /\
    text description = Some "Female".
Proof.
  eapply (code_levels_recorded_in_document Examples.census census_model "SEX").
  - vm_compute. reflexivity.
  - vm_compute. reflexivity.
  - by vm_compute.
Defined.

(** ** Lookups that fail *)

Lemma description_lookup (m : SDMXMetadata) code a v trim :
  code <> primary_measure_code m ->
  description_by_code_level m code (Some (String a v)) trim
  = levels ← getitem (code_levels m) code;
    description ← getitem levels (String a v);
    if trim then s ← deref description; Ok (Some (strip s))
    else Ok description.
Proof.
  intros Hpm. unfold description_by_code_level, is_primary_measure_code.
  by rewrite bool_decide_eq_false_2.
Qed.

(** X7. For a code other than the primary measure and a coded value that is
    not empty, [description_by_code_level] raises [KeyError] when the code
    carries no codelist key in the key family (a code that is no concept of
    the key family included), and also when no [Code] child of any
    [CodeList] element of the document has the value. *)
Theorem description_lookup_failures root m code v trim :
  init_from_root root = Ok m ->
  code <> primary_measure_code m ->
  v <> "" ->
  (concept_code_to_codelist_key m !! code = None ->
   description_by_code_level m code (Some v) trim = Raise KeyError) /\
  ((forall code_list level,
      code_list ∈ findall_descendants "CodeList" root ->
      level ∈ findall_children "Code" code_list ->
      attrib level !! "value" <> Some v) ->
   description_by_code_level m code (Some v) trim = Raise KeyError).
Proof.
  intros Hinit Hpm Hv. destruct v as [|a v]; [done|].
  rewrite description_lookup by done. split.
  - intros Hkey.
    destruct (code_levels m !! code) as [lv|] eqn:Hc.
    + destruct (code_levels_keys root m code lv Hinit Hc) as [_ [k Hk]]. congruence.
    + by rewrite getitem_missing.
  - intros Hnone.
    destruct (code_levels m !! code) as [lv|] eqn:Hc;
      [|by rewrite getitem_missing].
    rewrite (proj2 (getitem_Ok _ _ _) Hc). simpl.
    destruct (lv !! String a v) as [d|] eqn:Hd; [|by rewrite getitem_missing].
    destruct (code_levels_pair_origin root m code lv _ d Hinit Hc Hd)
      as (k & cl & level & desc & _ & _ & Hcl & _ & Hlevel & Hval & _).
    by destruct (Hnone cl level Hcl Hlevel).
Qed.

Lemma description_lookup_failures_witness :
  description_by_code_level geo_without_codelist_model "GEO" (Some "35") false
  = Raise KeyError /\
  description_by_code_level geo_without_codelist_model "SEX" (Some "9") false
  = Raise KeyError.
Proof.
  assert (Hinit : init_from_root geo_without_codelist = Ok geo_without_codelist_model)
    by (vm_compute; reflexivity).
  split.
  - refine (proj1 (description_lookup_failures geo_without_codelist
                     geo_without_codelist_model "GEO" "35" false Hinit _ _) _);
      [discriminate | discriminate | by vm_compute].
  - refine (proj2 (description_lookup_failures geo_without_codelist
                     geo_without_codelist_model "SEX" "9" false Hinit _ _) _);
      [discriminate | discriminate |].
    intros cl level Hcl Hlevel. vm_compute in Hcl.
    apply elem_of_cons in Hcl as [-> | Hcl]; [|by apply elem_of_nil in Hcl].
    vm_compute in Hlevel.
    apply elem_of_cons in Hlevel as [-> | Hlevel]; [|by apply elem_of_nil in Hlevel].
    by vm_compute.
Defined.

(** ** Trimming *)

Lemma append_cons a (s t : string) : String a s +:+ t = String a (s +:+ t).
Proof. reflexivity. Qed.

Lemma lstrip_split s : exists l, s = l +:+ lstrip s /\ all_space l = true.
Proof.
  induction s as [|a s (l & Hs & Hl)]; [by exists ""|]. simpl.
  destruct (py_isspace a) eqn:Ha.
  - exists (String a l). rewrite append_cons, <- Hs. simpl. by rewrite Ha, Hl.
  - by exists "".
Qed.

Lemma lstrip_start s : starts_with_space (lstrip s) = false.
Proof.
  induction s as [|a s IH]; [done|]. simpl.
  destruct (py_isspace a) eqn:Ha; [done|]. simpl. exact Ha.
Qed.

Lemma rstrip_split s : exists r, s = rstrip s +:+ r /\ all_space r = true.
Proof.
  induction s as [|a s (r & Hs & Hr)]; [by exists ""|]. simpl.
  destruct (rstrip s) as [|b t] eqn:Hrs.
  - change ("" +:+ r) with r in Hs. subst r. destruct (py_isspace a) eqn:Ha.
    + exists (String a s). simpl. by rewrite Ha, Hr.
    + by exists s.
  - exists r. split; [|done]. by rewrite append_cons, <- Hs.
Qed.

Lemma rstrip_end s : ends_with_space (rstrip s) = false.
Proof.
  induction s as [|a s IH]; [done|]. simpl.
  destruct (rstrip s) as [|b t] eqn:Hrs.
  - destruct (py_isspace a) eqn:Ha; [done|]. simpl. exact Ha.
  - exact IH.
Qed.

Lemma rstrip_start s :
  starts_with_space s = false -> starts_with_space (rstrip s) = false.
Proof.
  destruct s as [|a s]; [done|]. simpl. intros Ha.
  destruct (rstrip s); [by rewrite Ha | done].
Qed.

Lemma append_assoc (a b c : string) : (a +:+ b) +:+ c = a +:+ (b +:+ c).
Proof. induction a as [|x a IH]; [done | by rewrite !append_cons, IH]. Qed.

(** [strip] takes blanks off both ends, nothing else, and leaves none
    there. *)
Lemma strip_split s :
  exists l r,
    s = l +:+ strip s +:+ r /\
    all_space l = true /\ all_space r = true /\
    starts_with_space (strip s) = false /\
    ends_with_space (strip s) = false.
Proof.
  destruct (lstrip_split s) as (l & Hl & Hlsp).
  destruct (rstrip_split (lstrip s)) as (r & Hr & Hrsp).
  exists l, r. unfold strip. repeat split; try done.
  - by rewrite <- Hr.
  - apply rstrip_start, lstrip_start.
  - apply rstrip_end.
Qed.

(** X8. On the lookup branch (a code other than the primary measure, a
    coded value that is not empty) the result with [trim] is the result
    without it, stripped: what is returned has no blank at either end and
    differs from the stored description by blanks at the two ends only.  A
    description that is [None] (a [Description] element without text) makes
    the call with [trim] raise [AttributeError], and an exception of the
    lookup is raised with [trim] as without. *)
Theorem trimmed_description (m : SDMXMetadata) code v :
  code <> primary_measure_code m ->
  v <> "" ->
  (forall d, description_by_code_level m code (Some v) false = Ok (Some d) ->
     exists s l r,
       description_by_code_level m code (Some v) true = Ok (Some s) /\
       d = l +:+ s +:+ r /\
       all_space l = true /\ all_space r = true /\
       starts_with_space s = false /\ ends_with_space s = false) /\
  (description_by_code_level m code (Some v) false = Ok None ->
   description_by_code_level m code (Some v) true = Raise AttributeError) /\
  (forall e, description_by_code_level m code (Some v) false = Raise e ->
   description_by_code_level m code (Some v) true = Raise e).
Proof.
  intros Hpm Hv. destruct v as [|a v]; [done|].
  rewrite !description_lookup by done.
  destruct (getitem (code_levels m) code) as [lv|e1]; simpl;
    [|by repeat split].
  destruct (getitem lv (String a v)) as [[d0|]|e2]; simpl.
  - split; [|by split]. intros d [= <-].
    destruct (strip_split d0) as (l & r & Hsplit & Hrest).
    exists (strip d0), l, r. by split.
  - by repeat split.
  - by repeat split.
Qed.

Lemma trimmed_description_witness :
  exists s l r,
    description_by_code_level census_model "AGE" (Some "01") true = Ok (Some s) /\
    "   75 years and over" = l +:+ s +:+ r /\
    all_space l = true /\ all_space r = true /\
    starts_with_space s = false /\ ends_with_space s = false.
Proof.
  refine (proj1 (trimmed_description census_model "AGE" "01" _ _) _ _);
    [discriminate | discriminate | by vm_compute].
Defined.

(** ** Which documents construct *)

Lemma ret_bind {A B} (a : A) (f : A -> result B) : Ok a ≫= f = f a.
Proof. reflexivity. Qed.

Lemma for_each_cons {A S} (body : S -> A -> result S) x l s :
  for_each body (x :: l) s = body s x ≫= for_each body l.
Proof. reflexivity. Qed.

(** A loop that ended without an exception ran every iteration without
    one. *)
Lemma for_each_Ok_each {A S} (body : S -> A -> result S) l s r x :
  for_each body l s = Ok r -> x ∈ l -> exists s1 s2, body s1 x = Ok s2.
Proof.
  revert s. induction l as [|y l IH]; intros s Hrun Hx.
  - by apply elem_of_nil in Hx.
  - simpl in Hrun. apply bind_Ok in Hrun as (s' & Hy & Hrun).
    apply elem_of_cons in Hx as [-> | Hx]; eauto.
Qed.








(** ** The primary measure *)

(** X10. The primary measure of a constructed model is the [conceptRef] of
    the first [PrimaryMeasure] element of the document, and
    [is_primary_measure_code] is true of that code alone.  A first
    [PrimaryMeasure] element without a [conceptRef] makes construction
    raise [KeyError]. *)
Theorem primary_measure_from_document root :
  (forall m, init_from_root root = Ok m ->
     exists pm,
       find_descendant "PrimaryMeasure" root = Some pm /\
       attrib pm !! "conceptRef" = Some (primary_measure_code m) /\
       forall code, is_primary_measure_code m code = true
                    <-> code = primary_measure_code m) /\
  (forall pm, find_descendant "PrimaryMeasure" root = Some pm ->
     attrib pm !! "conceptRef" = None ->
     init_from_root root = Raise KeyError).
Proof.
  split.
  - intros m (refs & names & Hpm & _)%init_from_root_Ok.
    unfold load_primary_measure in Hpm.
    apply bind_Ok in Hpm as (pm & Hfind%deref_Ok & Hattr%getitem_Ok).
    exists pm. split; [done|]. split; [done|].
    intros code. unfold is_primary_measure_code. apply bool_decide_eq_true.
  - intros pm Hfind Hattr. unfold init_from_root, load_primary_measure.
    rewrite Hfind. simpl. by rewrite getitem_missing.
Qed.

Lemma primary_measure_from_document_witness :
  (exists pm,
     find_descendant "PrimaryMeasure" Examples.census = Some pm /\
     attrib pm !! "conceptRef" = Some (primary_measure_code census_model) /\
     forall code, is_primary_measure_code census_model code = true
                  <-> code = primary_measure_code census_model) /\
  init_from_root measure_without_ref = Raise KeyError.
Proof.
  split.
  - apply (proj1 (primary_measure_from_document Examples.census)).
    vm_compute. reflexivity.
  - eapply (proj2 (primary_measure_from_document measure_without_ref)).
    + vm_compute. reflexivity.
    + by vm_compute.
Defined.

(** ** The first concept without a name *)

(** X11. Once the primary measure is found, construction raises what the
    first code of the key family without a name raises: [AttributeError]
    when the document has no [Concept] element with that [id], and also
    when the first such element has no [Name] child. *)
Theorem init_raises_at_first_unnamed_concept root pre c post :
  (exists pm, load_primary_measure root = Ok pm) ->
  key_family_codes (findall_keyfamily_refs root) = pre ++ c :: post ->
  (forall c', c' ∈ pre -> exists n, concept_name root c' = Ok n) ->
  (forall e, concept_name root c = Raise e -> init_from_root root = Raise e) /\
  (find_by_id "Concept" c root = Ok None ->
   init_from_root root = Raise AttributeError) /\
  (forall concept, find_by_id "Concept" c root = Ok (Some concept) ->
     find_child "Name" concept = None ->
     init_from_root root = Raise AttributeError).
Proof.
  intros [pm Hpm] Hsplit Hpre.
  assert (Hraise : forall e, concept_name root c = Raise e ->
                             init_from_root root = Raise e).
  { intros e He. unfold init_from_root, load_concepts. rewrite Hpm. simpl.
    destruct (concept_refs_total root) as [refs Hrefs]. rewrite Hrefs. simpl.
    rewrite (rc_codes _ _ (refs_consistent_loop _ _ Hrefs)), Hsplit, for_each_app.
    destruct (for_each_total (concept_name_step root) pre no_names) as [s1 ->].
    { intros c' st Hc'. destruct (Hpre c' Hc') as [n Hn].
      unfold concept_name_step. rewrite Hn. simpl. eauto. }
    rewrite ret_bind, for_each_cons. unfold concept_name_step. by rewrite He. }
  split; [exact Hraise|]. split.
  - intros Hnone. apply Hraise. unfold concept_name. by rewrite Hnone.
  - intros concept Hsome Hname. apply Hraise. unfold concept_name.
    rewrite Hsome. simpl. by rewrite Hname.
Qed.

Lemma init_raises_at_first_unnamed_concept_witness :
  init_from_root codelist_nameless_concept = Raise AttributeError.
Proof.
  refine (proj1 (proj2 (init_raises_at_first_unnamed_concept
            codelist_nameless_concept ["SEX"] "AGE" ["OBS_VALUE"] _ _ _)) _).
  - eexists. vm_compute. reflexivity.
  - by vm_compute.
  - intros c' ->%list_elem_of_singleton. eexists. vm_compute. reflexivity.
  - by vm_compute.
Defined.

(** * Properties of the extraction script *)

Lemma build_rows_step_Ok st elem st' :
  build_rows_step st elem = Ok st' -> step_outcome st elem st'.
Proof.
  unfold build_rows_step. intros H.
  apply bind_Ok in H as (st1 & H1 & H).
  destruct (decide (remove_xml_namespace (tag elem) = "Value")) as [Htag|Htag].
  - rewrite Htag in H. rewrite decide_False in H by discriminate.
    injection H as <-.
    apply bind_Ok in H1 as (k & Hk%getitem_Ok & H1).
    apply bind_Ok in H1 as (v & Hv%getitem_Ok & H1).
    destruct (decide (k = "OBS_STATUS")) as [->|Hne]; injection H1 as <-.
    + by eapply step_status.
    + by eapply step_value.
  - injection H1 as <-.
    destruct (decide (remove_xml_namespace (tag elem) = "ObsValue")) as [Hobs|Hobs].
    + apply bind_Ok in H as (v & Hv%getitem_Ok & H). injection H as <-.
      by eapply step_obs.
    + injection H as <-. by apply step_other.
Qed.

Lemma build_rows_step_readable st elem :
  readable_event elem -> exists st', build_rows_step st elem = Ok st'.
Proof.
  intros [Hvalue Hobs]. unfold build_rows_step.
  destruct (decide (remove_xml_namespace (tag elem) = "Value")) as [Htag|Htag].
  - destruct (Hvalue Htag) as [[k Hk] [v Hv]].
    unfold getitem. rewrite Hk, Hv. simpl.
    destruct (decide (k = "OBS_STATUS")); simpl;
      rewrite decide_False by (rewrite Htag; discriminate); eauto.
  - simpl.
    destruct (decide (remove_xml_namespace (tag elem) = "ObsValue")) as [Ho|Ho];
      [|eauto].
    destruct (Hobs Ho) as [v Hv]. unfold getitem. rewrite Hv. simpl. eauto.
Qed.

Lemma build_rows_step_raises st elem e :
  build_rows_step st elem = Raise e ->
  e = KeyError /\ ~ readable_event elem.
Proof.
  intros Hraise. split.
  - unfold build_rows_step, getitem in Hraise.
    repeat (case_decide || case_match || simpl in Hraise); congruence.
  - intros Hr. destruct (build_rows_step_readable st elem Hr) as [st' Hst'].
    congruence.
Qed.

Lemma odict_set_elem k k' keys :
  k' ∈ odict_set k keys <-> k' = k \/ k' ∈ keys.
Proof.
  unfold odict_set. case_decide.
  - split; [auto|]. by intros [-> | ?].
  - rewrite elem_of_app, list_elem_of_singleton. tauto.
Qed.

Lemma odict_set_NoDup k keys : NoDup keys -> NoDup (odict_set k keys).
Proof.
  unfold odict_set. case_decide; [done|]. intros Hnd.
  apply NoDup_app. split; [done|]. split; [|apply NoDup_singleton].
  intros x Hx ->%list_elem_of_singleton. done.
Qed.

Lemma odict_set_mono k k1 k2 keys :
  k ∈ odict_set k1 keys -> k ∈ odict_set k1 (odict_set k2 keys).
Proof. rewrite !odict_set_elem. tauto. Qed.

Lemma keys_recorded_step st elem st' :
  keys_recorded st -> build_rows_step st elem = Ok st' -> keys_recorded st'.
Proof.
  intros [Hrow Hrows] Hstep%build_rows_step_Ok.
  destruct Hstep as [k v _ _ _ _ -> | v _ _ _ -> | v _ _ -> | _ _ ->];
    [| | |by split]; split; simpl.
  - intros k'. rewrite odict_set_elem. destruct (decide (k = k')) as [->|Hne]; [auto|].
    rewrite lookup_insert_ne by done. auto.
  - eapply Forall_impl; [exact Hrows|]. simpl. intros row Hr k' Hk'.
    by apply odict_set_mono, Hr.
  - intros k' [x Hx]. by rewrite lookup_empty in Hx.
  - unfold append_row. apply Forall_app. split.
    + eapply Forall_impl; [exact Hrows|]. simpl. intros row Hr k' Hk'.
      by apply odict_set_mono, Hr.
    + apply Forall_singleton. intros k'. rewrite !odict_set_elem.
      destruct (decide ("OBS_VALUE" = k')) as [<-|Hne1]; [auto|].
      rewrite lookup_insert_ne by done.
      destruct (decide ("OBS_STATUS" = k')) as [<-|Hne2]; [auto|].
      rewrite lookup_insert_ne by done. auto.
  - intros k' [x Hx]. by rewrite lookup_empty in Hx.
  - unfold append_row. apply Forall_app. split; [done|].
    apply Forall_singleton. intros k'. rewrite odict_set_elem.
    destruct (decide ("OBS_VALUE" = k')) as [<-|Hne1]; [auto|].
    rewrite lookup_insert_ne by done. auto.
Qed.

Lemma keys_recorded_loop events st :
  for_each build_rows_step events (mkExtract ∅ [] []) = Ok st ->
  keys_recorded st.
Proof.
  apply for_each_preserves.
  - split; simpl; [|constructor]. intros k [x Hx]. by rewrite lookup_empty in Hx.
  - intros e s1 s2 _. apply keys_recorded_step.
Qed.

Lemma writerows_total fieldnames (rows : list Row) :
  Forall (fun row : Row => forall k, is_Some (row !! k) -> k ∈ fieldnames) rows ->
  exists lines,
    writerows fieldnames rows = Written lines /\
    length lines = length rows /\
    Forall (fun line => length line = length fieldnames) lines.
Proof.
  induction 1 as [|row rows Hrow _ (lines & Hlines & Hlen & Hall)]; simpl.
  - exists []. by repeat split.
  - unfold dict_to_list. rewrite decide_True.
    + rewrite Hlines. eexists. split; [done|]. split; [by simpl; rewrite Hlen|].
      constructor; [by rewrite length_fmap | done].
    + intros k x Hk. apply Hrow. eauto.
Qed.

Lemma build_rows_Ok parsed row_array keys rows keys' :
  build_rows parsed row_array keys = Ok (rows, keys') ->
  exists st,
    for_each build_rows_step (end_events parsed) (mkExtract ∅ row_array keys) = Ok st /\
    ex_rows st = rows /\ ex_keys st = keys'.
Proof.
  unfold build_rows. intros H. apply bind_Ok in H as (st & Hst & H).
  injection H as <- <-. eauto.
Qed.

(** X12. A file that [build_rows] reads to the end is always written:
    every key of every row is a field name, so [DictWriter] does not raise
    [ValueError]; the header is the keys met, with [OBS_VALUE] added, and
    there is one line per row, each with one field per header column. *)
Theorem extracted_rows_are_written parsed rows keys :
  build_rows parsed [] [] = Ok (rows, keys) ->
  exists lines,
    write_rows rows keys = Written (odict_set "OBS_VALUE" keys, lines) /\
    length lines = length rows /\
    Forall (fun line => length line = length (odict_set "OBS_VALUE" keys)) lines.
Proof.
  intros (st & Hrun & <- & <-)%build_rows_Ok.
  destruct (keys_recorded_loop _ _ Hrun) as [_ Hrows].
  destruct (writerows_total _ _ Hrows) as (lines & Hlines & Hrest).
  exists lines. unfold write_rows. by rewrite Hlines.
Qed.

Lemma extracted_rows_are_written_witness :
  exists rows keys lines,
    build_rows generic_data [] [] = Ok (rows, keys) /\
    write_rows rows keys = Written (["GEO"; "SEX"; "OBS_STATUS"; "OBS_VALUE"], lines) /\
    length lines = 2.
Proof.
  eexists _, _.
  destruct (extracted_rows_are_written generic_data _ _
              ltac:(vm_compute; reflexivity)) as (lines & Hw & Hlen & _).
  exists lines. split; [vm_compute; reflexivity|]. split; [exact Hw | exact Hlen].
Defined.

(** The keys recorded are the concepts of the [Value] elements read. *)
Lemma keys_are_concepts events st :
  for_each build_rows_step events (mkExtract ∅ [] []) = Ok st ->
  NoDup (ex_keys st) /\
  forall k, k ∈ ex_keys st <->
            exists elem, elem ∈ events /\
                         remove_xml_namespace (tag elem) = "Value" /\
                         attrib elem !! "concept" = Some k.
Proof.
  apply (for_each_invariant _ (fun visited st =>
    NoDup (ex_keys st) /\
    forall k, k ∈ ex_keys st <->
              exists elem, elem ∈ visited /\
                           remove_xml_namespace (tag elem) = "Value" /\
                           attrib elem !! "concept" = Some k)).
  - split; [constructor|]. intros k. split.
    + intros Hk. by apply elem_of_nil in Hk.
    + intros (elem & He & _). by apply elem_of_nil in He.
  - intros pre e s1 s2 [Hnd Hkeys] Hstep%build_rows_step_Ok.
    assert (Hold : forall k,
      (exists elem, elem ∈ pre ++ [e] /\ remove_xml_namespace (tag elem) = "Value" /\
                    attrib elem !! "concept" = Some k) <->
      k ∈ ex_keys s1 \/
      (remove_xml_namespace (tag e) = "Value" /\ attrib e !! "concept" = Some k)).
    { intros k. rewrite Hkeys. split.
      - intros (elem & [Hin | ->%list_elem_of_singleton]%elem_of_app & Htag & Hc);
          eauto.
      - intros [(elem & Hin & Hrest) | Hrest].
        + exists elem. split; [apply elem_of_app; by left | done].
        + exists e. split; [|done]. apply elem_of_app. right. constructor. }
    destruct Hstep as [k v Htag Hk _ _ -> | v Htag Hk _ -> | v Htag _ -> | Htag _ ->];
      simpl; (split; [by (try apply odict_set_NoDup)|]); intros k';
      rewrite Hold, ?odict_set_elem.
    + split; [intros [-> | ?]; auto | intros [? | [_ ?]]; [auto | left; congruence]].
    + split; [intros [-> | ?]; auto | intros [? | [_ ?]]; [auto | left; congruence]].
    + split; [auto | intros [? | [? _]]; [done | congruence]].
    + split; [auto | intros [? | [? _]]; [done | congruence]].
Qed.

(** X13. The header of the file written has no column twice and has the
    column [OBS_VALUE]; apart from it, its columns are exactly the concepts
    of the [Value] elements of the data file. *)
Theorem header_columns parsed rows keys :
  build_rows parsed [] [] = Ok (rows, keys) ->
  NoDup (odict_set "OBS_VALUE" keys) /\
  "OBS_VALUE" ∈ odict_set "OBS_VALUE" keys /\
  forall k, k ∈ odict_set "OBS_VALUE" keys <->
            k = "OBS_VALUE" \/
            exists elem, elem ∈ end_events parsed /\
                         remove_xml_namespace (tag elem) = "Value" /\
                         attrib elem !! "concept" = Some k.
Proof.
  intros (st & Hrun & _ & <-)%build_rows_Ok.
  destruct (keys_are_concepts _ _ Hrun) as [Hnd Hkeys].
  split; [by apply odict_set_NoDup|]. split; [apply odict_set_elem; by left|].
  intros k. by rewrite odict_set_elem, Hkeys.
Qed.

Lemma header_columns_witness :
  exists rows keys,
    build_rows generic_data [] [] = Ok (rows, keys) /\
    NoDup (odict_set "OBS_VALUE" keys) /\
    "OBS_VALUE" ∈ odict_set "OBS_VALUE" keys.
Proof.
  eexists _, _. split; [vm_compute; reflexivity|].
  destruct (header_columns generic_data _ _ ltac:(vm_compute; reflexivity))
    as (Hnd & Hin & _).
  split; [exact Hnd | exact Hin].
Defined.

Lemma rows_counted events st :
  for_each build_rows_step events (mkExtract ∅ [] []) = Ok st ->
  length (ex_rows st) = length (filter closes_row events) /\
  Forall (fun row : Row => is_Some (row !! "OBS_VALUE")) (ex_rows st).
Proof.
  apply (for_each_invariant _ (fun visited st =>
    length (ex_rows st) = length (filter closes_row visited) /\
    Forall (fun row : Row => is_Some (row !! "OBS_VALUE")) (ex_rows st))).
  - by split.
  - intros pre e s1 s2 [Hlen Hall] Hstep%build_rows_step_Ok.
    rewrite filter_app, length_app, <- Hlen.
    destruct Hstep as [k v Htag Hk _ Hne -> | v Htag Hk _ -> | v Htag _ -> | Hv Ho ->];
      simpl; unfold append_row.
    + rewrite filter_cons_False, filter_nil; [split; [simpl; lia | done]|].
      intros [Ho | [_ Hs]]; [rewrite Htag in Ho; discriminate | congruence].
    + rewrite filter_cons_True by (right; done).
      rewrite length_app, Forall_app, Forall_singleton, lookup_insert_eq.
      split; [done | eauto].
    + rewrite filter_cons_True by (left; done).
      rewrite length_app, Forall_app, Forall_singleton, lookup_insert_eq.
      split; [done | eauto].
    + rewrite filter_cons_False, filter_nil; [split; [simpl; lia | done]|].
      intros [? | [? _]]; done.
Qed.

(** X14. The number of rows built is the number of [ObsValue] elements
    plus the number of [Value] elements of concept [OBS_STATUS], and every
    row has an entry for [OBS_VALUE]. *)
Theorem one_row_per_closing_element parsed rows keys :
  build_rows parsed [] [] = Ok (rows, keys) ->
  length rows = length (filter closes_row (end_events parsed)) /\
  Forall (fun row : Row => is_Some (row !! "OBS_VALUE")) rows.
Proof.
  intros (st & Hrun & <- & _)%build_rows_Ok. by apply rows_counted.
Qed.

Lemma one_row_per_closing_element_witness :
  exists rows keys,
    build_rows generic_data [] [] = Ok (rows, keys) /\
    length rows = 2 /\
    Forall (fun row : Row => is_Some (row !! "OBS_VALUE")) rows.
Proof.
  eexists _, _. split; [vm_compute; reflexivity|].
  eapply (one_row_per_closing_element generic_data).
  vm_compute. reflexivity.
Defined.

Lemma build_rows_step_Ok_readable st elem st' :
  build_rows_step st elem = Ok st' -> readable_event elem.
Proof.
  intros Hstep%build_rows_step_Ok. unfold readable_event.
  destruct Hstep as [k v Htag Hk Hv _ _ | v Htag Hk Hv _ | v Htag Hv _ | Hv Ho _];
    rewrite ?Htag; split; intros Heq; try discriminate Heq; try done; eauto.
Qed.

(** X15. [build_rows] reads the file to the end exactly when every [Value]
    element has the attributes [concept] and [value] and every [ObsValue]
    element has the attribute [value]; otherwise the exception it raises
    is [KeyError]. *)
Theorem build_rows_reads_readable_files parsed row_array keys :
  ((exists r, build_rows parsed row_array keys = Ok r) <->
   Forall readable_event (end_events parsed)) /\
  (forall e, build_rows parsed row_array keys = Raise e -> e = KeyError).
Proof.
  unfold build_rows.
  generalize (mkExtract ∅ row_array keys). generalize (end_events parsed).
  intros events st. split; [split|].
  - intros [r Hr]. apply bind_Ok in Hr as (st' & Hrun & _).
    apply Forall_forall. intros elem Helem.
    destruct (for_each_Ok_each _ _ _ _ elem Hrun Helem) as (s1 & s2 & Hstep).
    by apply build_rows_step_Ok_readable in Hstep.
  - intros Hall.
    destruct (for_each_total build_rows_step events st) as [st' ->].
    + intros elem s Helem. apply build_rows_step_readable.
      rewrite Forall_forall in Hall. auto.
    + simpl. eauto.
  - revert st. induction events as [|elem events IH]; intros st e; [done|].
    rewrite for_each_cons.
    destruct (build_rows_step st elem) as [st1|e1] eqn:Hstep.
    + rewrite ret_bind. apply IH.
    + simpl. intros [= <-]. by apply build_rows_step_raises in Hstep as [-> _].
Qed.

Lemma build_rows_reads_readable_files_witness :
  (exists r, build_rows generic_data [] [] = Ok r) /\
  build_rows value_without_concept [] [] = Raise KeyError.
Proof.
  split.
  - apply (proj2 (proj1 (build_rows_reads_readable_files generic_data [] []))).
    vm_compute. repeat constructor; try discriminate; eauto.
  - destruct (build_rows value_without_concept [] []) as [r|e] eqn:Hr.
    + vm_compute in Hr. discriminate Hr.
    + f_equal. by apply (proj2 (build_rows_reads_readable_files
                                  value_without_concept [] [])).
Defined.

(** The rows already built are only added to. *)
Lemma build_rows_step_frame earlier row rows keys elem st' :
  build_rows_step (mkExtract row rows keys) elem = Ok st' ->
  build_rows_step (mkExtract row (earlier ++ rows) keys) elem
  = Ok (mkExtract (ex_row st') (earlier ++ ex_rows st') (ex_keys st')).
Proof.
  unfold build_rows_step. simpl.
  destruct (decide (remove_xml_namespace (tag elem) = "Value")) as [Htag|Htag].
  - destruct (getitem (attrib elem) "concept") as [k|]; [|done]. simpl.
    destruct (getitem (attrib elem) "value") as [v|]; [|done]. simpl.
    destruct (decide (k = "OBS_STATUS")); simpl;
      rewrite !decide_False by (rewrite Htag; discriminate);
      intros [= <-]; simpl; unfold append_row; by rewrite <- ?app_assoc.
  - simpl. destruct (decide (remove_xml_namespace (tag elem) = "ObsValue")).
    + destruct (getitem (attrib elem) "value") as [v|]; [|done]. simpl.
      intros [= <-]. simpl. unfold append_row. by rewrite <- app_assoc.
    + by intros [= <-].
Qed.

Lemma build_rows_frame earlier events row rows keys st' :
  for_each build_rows_step events (mkExtract row rows keys) = Ok st' ->
  for_each build_rows_step events (mkExtract row (earlier ++ rows) keys)
  = Ok (mkExtract (ex_row st') (earlier ++ ex_rows st') (ex_keys st')).
Proof.
  revert row rows keys.
  induction events as [|elem events IH]; intros row rows keys Hrun.
  - injection Hrun as <-. done.
  - rewrite for_each_cons in Hrun. apply bind_Ok in Hrun as (s1 & Hstep & Hrun).
    rewrite for_each_cons, (build_rows_step_frame earlier _ _ _ _ _ Hstep), ret_bind.
    destruct s1 as [row1 rows1 keys1]. by apply IH.
Qed.

Lemma closing_step_empties_row st elem st' :
  closes_row elem -> build_rows_step st elem = Ok st' -> ex_row st' = ∅.
Proof.
  intros Hclose Hstep%build_rows_step_Ok.
  destruct Hstep as [k v Htag Hk _ Hne -> | v _ _ _ -> | v _ _ -> | Hv Ho ->];
    try done.
  - destruct Hclose as [Ho | [_ Hs]]; [rewrite Htag in Ho; discriminate | congruence].
  - by destruct Hclose as [? | [? _]].
Qed.

(** X16. No pair is carried from one row into the next.  When the elements
    read are cut after an element that closes a row, the rows built from
    the whole are the rows built from the first part followed by the rows
    built from the second part on its own, started with the keys the first
    part has recorded. *)
Theorem rows_compose_at_row_boundary before closing after st1 st2 :
  closes_row closing ->
  for_each build_rows_step (before ++ [closing]) (mkExtract ∅ [] []) = Ok st1 ->
  for_each build_rows_step after (mkExtract ∅ [] (ex_keys st1)) = Ok st2 ->
  ex_row st1 = ∅ /\
  for_each build_rows_step ((before ++ [closing]) ++ after) (mkExtract ∅ [] [])
  = Ok (mkExtract (ex_row st2) (ex_rows st1 ++ ex_rows st2) (ex_keys st2)).
Proof.
  intros Hclose Hfirst Hsecond.
  assert (Hempty : ex_row st1 = ∅).
  { rewrite for_each_app in Hfirst.
    apply bind_Ok in Hfirst as (s0 & _ & Hlast). simpl in Hlast.
    apply bind_Ok in Hlast as (s1 & Hstep & [= <-]).
    by apply (closing_step_empties_row s0 closing). }
  split; [done|].
  rewrite for_each_app, Hfirst, ret_bind.
  destruct st1 as [row1 rows1 keys1]. simpl in *. subst row1.
  apply (build_rows_frame rows1) in Hsecond.
  by rewrite app_nil_r in Hsecond.
Qed.

Lemma rows_compose_at_row_boundary_witness :
  exists st1 st2,
    for_each build_rows_step
      ((series_events ++ [first_obs]) ++ [second_obs]) (mkExtract ∅ [] [])
    = Ok (mkExtract (ex_row st2) (ex_rows st1 ++ ex_rows st2) (ex_keys st2)) /\
    ex_rows st2 = [{[ "OBS_VALUE" := Some "7" ]}].
Proof.
  eexists _, _.
  split.
  - refine (proj2 (rows_compose_at_row_boundary
                     series_events first_obs [second_obs] _ _ _ _ _)).
    + left. reflexivity.
    + vm_compute. reflexivity.
    + vm_compute. reflexivity.
  - reflexivity.
Defined.

(** * Properties of [rename_column] *)

Lemma all_chars_app P s t :
  all_chars P (s +:+ t) = all_chars P s && all_chars P t.
Proof.
  induction s as [|a s IH]; [done|].
  rewrite append_cons. simpl. by rewrite IH, andb_assoc.
Qed.

Lemma char_in_all_chars c s :
  char_in c s = false <-> all_chars (other_than c) s = true.
Proof.
  induction s as [|a s IH]; simpl; [done|]. unfold other_than at 1.
  destruct (Ascii.eqb a c); simpl; [split; discriminate | exact IH].
Qed.

Lemma replace_from_here old new a s :
  replace_from 0 old new (String a s)
  = if String.prefix old (String a s)
    then new +:+ replace_from (String.length old - 1) old new s
    else String a (replace_from 0 old new s).
Proof. reflexivity. Qed.

Lemma replace_from_skip n old new a s :
  replace_from (S n) old new (String a s) = replace_from n old new s.
Proof. reflexivity. Qed.

(** Replacing keeps a property that all characters of the string and of
    the replacement have. *)
Lemma replace_from_all_chars P skip old new s :
  all_chars P s = true -> all_chars P new = true ->
  all_chars P (replace_from skip old new s) = true.
Proof.
  intros Hs Hnew. revert skip Hs.
  induction s as [|a s IH]; intros skip Hs; [done|].
  simpl in Hs. apply andb_true_iff in Hs as [Ha Hs].
  destruct skip as [|n]; [|rewrite replace_from_skip; by apply IH].
  rewrite replace_from_here. destruct (String.prefix old (String a s)).
  - rewrite all_chars_app, Hnew. simpl. by apply IH.
  - simpl. rewrite Ha. simpl. by apply IH.
Qed.

Lemma prefix_empty s : String.prefix "" s = true.
Proof. by destruct s. Qed.

(** Replacing a single character leaves none of it. *)
Lemma replace_from_char_gone c skip new s :
  all_chars (other_than c) new = true ->
  all_chars (other_than c) (replace_from skip (String c "") new s) = true.
Proof.
  intros Hnew. revert skip.
  induction s as [|a s IH]; intros skip; [done|].
  destruct skip as [|n]; [|rewrite replace_from_skip; apply IH].
  rewrite replace_from_here.
  change (String.prefix (String c "") (String a s))
    with (if ascii_dec c a then String.prefix "" s else false).
  destruct (ascii_dec c a) as [->|Hne].
  - rewrite prefix_empty, all_chars_app, Hnew. apply IH.
  - cbn [all_chars]. rewrite IH, andb_true_r. unfold other_than.
    apply negb_true_iff, Ascii.eqb_neq. congruence.
Qed.

Lemma py_lower_char_not_upper a : is_ascii_upper (py_lower_char a) = false.
Proof. by destruct a as [[] [] [] [] [] [] [] []]. Qed.

Lemma lower_no_upper s :
  all_chars (fun a => negb (is_ascii_upper a)) (lower s) = true.
Proof.
  induction s as [|a s IH]; [done|]. simpl.
  by rewrite py_lower_char_not_upper, IH.
Qed.

(** X17. A column name made by [rename_column] has no space, no comma, no
    dollar sign and none of the letters A to Z. *)
Theorem rename_column_result_is_plain column :
  char_in " " (rename_column column) = false /\
  char_in "," (rename_column column) = false /\
  char_in "$" (rename_column column) = false /\
  all_chars (fun a => negb (is_ascii_upper a)) (rename_column column) = true.
Proof.
  unfold rename_column, replace.
  set (c0 := lower (strip column)).
  set (c1 := replace_from 0 " ($)" "" c0).
  set (c2 := replace_from 0 "$" "" c1).
  set (c3 := replace_from 0 "total - " "all-" c2).
  set (c4 := replace_from 0 " " "-" c3).
  assert (H2 : all_chars (other_than "$") c2 = true)
    by by apply replace_from_char_gone.
  assert (H3 : all_chars (other_than "$") c3 = true)
    by by apply replace_from_all_chars.
  assert (H4 : all_chars (other_than "$") c4 = true)
    by by apply replace_from_all_chars.
  assert (S4 : all_chars (other_than " ") c4 = true)
    by by apply replace_from_char_gone.
  repeat split.
  - apply char_in_all_chars. by apply replace_from_all_chars.
  - apply char_in_all_chars. by apply replace_from_char_gone.
  - apply char_in_all_chars. by apply replace_from_all_chars.
  - repeat (apply replace_from_all_chars; [|done]). apply lower_no_upper.
Qed.

Lemma prefix_char_in c old s :
  String.prefix old s = true -> char_in c old = true -> char_in c s = true.
Proof.
  revert s. induction old as [|a old IH]; intros s; [done|].
  destruct s as [|b s]; [done|]. simpl.
  destruct (ascii_dec a b) as [->|Hne]; [|done]. intros Hp.
  destruct (Ascii.eqb b c); [done|]. by apply IH.
Qed.

(** Nothing is replaced in a string that lacks a character of [old]. *)
Lemma replace_absent c old new s :
  char_in c old = true -> char_in c s = false -> replace old new s = s.
Proof.
  intros Hold. unfold replace.
  induction s as [|a s IH]; [done|]. intros Hs. rewrite replace_from_here.
  destruct (String.prefix old (String a s)) eqn:Hp.
  - by rewrite (prefix_char_in c _ _ Hp Hold) in Hs.
  - f_equal. apply IH. simpl in Hs. by destruct (Ascii.eqb a c).
Qed.

Lemma lstrip_unchanged s : starts_with_space s = false -> lstrip s = s.
Proof. destruct s as [|a s]; [done|]. simpl. by intros ->. Qed.

Lemma rstrip_unchanged s : ends_with_space s = false -> rstrip s = s.
Proof.
  induction s as [|a s IH]; [done|]. simpl.
  destruct s as [|b s].
  - simpl. by intros ->.
  - intros Hs. rewrite (IH Hs). done.
Qed.

(** X18. [rename_column] leaves a label as it is when the label has no
    blank at either end, no letter that [lower] changes, and no space,
    comma or dollar sign. *)
Theorem rename_column_fixes_clean_labels column :
  clean_label column -> rename_column column = column.
Proof.
  intros (Hstart & Hend & Hlower & Hspace & Hcomma & Hdollar).
  unfold rename_column, strip.
  rewrite (lstrip_unchanged _ Hstart), (rstrip_unchanged _ Hend), Hlower.
  rewrite (replace_absent " " " ($)") by done.
  rewrite (replace_absent "$" "$") by done.
  rewrite (replace_absent " " "total - ") by done.
  rewrite (replace_absent " " " ") by done.
  by rewrite (replace_absent "," ",").
Qed.

Lemma rename_column_fixes_clean_labels_witness :
  rename_column "all-income-2015" = "all-income-2015".
Proof.
  apply rename_column_fixes_clean_labels. by vm_compute.
Defined.

Example rename_column_examples :
  rename_column "  Total - Income ($), 2015 " = "all-income-2015" /\
  rename_column "Employment income ($)" = "employment-income" /\
  replace "aa" "b" "aaaaa" = "bba".
Proof. by vm_compute. Qed.

(** * Properties of the rewriting script *)

Lemma getitem_raises `{Countable K} {V} (d : gmap K V) k e :
  getitem d k = Raise e -> e = KeyError.
Proof. unfold getitem. destruct (d !! k); congruence. Qed.

Lemma description_untrimmed_raises m code v e :
  description_by_code_level m code v false = Raise e -> e = KeyError.
Proof.
  unfold description_by_code_level.
  destruct (negb (truthy v)); [done|].
  destruct (is_primary_measure_code m code); [done|].
  destruct (getitem (code_levels m) code) as [lv|e1] eqn:H1; simpl.
  - destruct v as [v|]; [|by intros [= <-]].
    destruct (getitem lv v) as [d|e2] eqn:H2; simpl; [done|].
    intros [= <-]. by apply getitem_raises in H2.
  - intros [= <-]. by apply getitem_raises in H1.
Qed.

Lemma humanize_item_raises m acc item e :
  humanize_item m acc item = Raise e -> e = KeyError.
Proof.
  unfold humanize_item, name_by_code.
  destruct (getitem (concept_code_to_name m) item.1) as [n|e1] eqn:H1; simpl.
  - destruct (description_by_code_level m item.1 item.2 false) as [d|e2] eqn:H2;
      simpl; [done|].
    intros [= <-]. by apply description_untrimmed_raises in H2.
  - intros [= <-]. by apply getitem_raises in H1.
Qed.

Lemma for_each_raises {A S} (body : S -> A -> result S) (P : PyExn -> Prop) l s e :
  (forall s1 x e1, body s1 x = Raise e1 -> P e1) ->
  for_each body l s = Raise e -> P e.
Proof.
  intros Hbody. revert s. induction l as [|x l IH]; intros s; [done|].
  rewrite for_each_cons. destruct (body s x) as [s1|e1] eqn:Hx.
  - rewrite ret_bind. apply IH.
  - simpl. intros [= <-]. eauto.
Qed.

Lemma humanize_line_raises m line e :
  humanize_line m line = Raise e -> e = KeyError.
Proof.
  unfold humanize_line.
  destruct (for_each (humanize_item m) (ln_items line) ∅) as [nl|e1] eqn:H1; simpl.
  - destruct (ln_rest line); simpl; [congruence|].
    destruct (odict_lookup "GEO" (ln_items line)); done.
  - intros [= <-].
    eapply (for_each_raises _ (fun e => e = KeyError)); [|exact H1].
    intros s1 x e2. apply humanize_item_raises.
Qed.

Lemma names_by_codes_raises m header e :
  names_by_codes m header = Raise e -> e = KeyError.
Proof.
  induction header as [|x header IH]; [done|]. simpl. unfold name_by_code at 1.
  destruct (getitem (concept_code_to_name m) x) as [n|e1] eqn:H1; simpl.
  - destruct (names_by_codes m header) as [ns|e2]; simpl; [done|].
    intros [= <-]. by apply IH.
  - intros [= <-]. by apply getitem_raises in H1.
Qed.

(** The names found for the field names. *)
Lemma names_by_codes_Ok m header names :
  names_by_codes m header = Ok names ->
  Forall2 (fun x n => name_by_code m x = Ok n) header names.
Proof.
  revert names. induction header as [|x header IH]; intros names.
  - intros [= <-]. constructor.
  - simpl. intros H. apply bind_Ok in H as (n & Hn & H).
    apply bind_Ok in H as (ns & Hns & [= <-]). constructor; auto.
Qed.

Lemma odict_assign_keys {V} k (v : V) d k' v' :
  (k', v') ∈ odict_assign k v d -> k' = k \/ exists v0, (k', v0) ∈ d.
Proof.
  induction d as [|[k0 v0] d IH]; simpl.
  - intros [= -> ->]%list_elem_of_singleton. by left.
  - case_decide as Hk.
    + intros [[= -> ->] | Hin]%elem_of_cons; [by left|].
      right. exists v'. by constructor.
    + intros [[= -> ->] | Hin]%elem_of_cons.
      * right. exists v0. constructor.
      * destruct (IH Hin) as [-> | [v1 Hv1]]; [by left|].
        right. exists v1. by constructor.
Qed.

(** The keys of a line are field names. *)
Lemma reader_line_keys fieldnames row k v :
  (k, v) ∈ ln_items (reader_line fieldnames row) -> k ∈ fieldnames.
Proof.
  assert (Hzip : forall (pairs : list (string * string)) d,
    (forall k v, (k, v) ∈ d -> k ∈ fieldnames) ->
    (forall kv, kv ∈ pairs -> kv.1 ∈ fieldnames) ->
    forall k v,
      (k, v) ∈ foldl (fun d kv => odict_assign kv.1 (Some kv.2) d) d pairs ->
      k ∈ fieldnames).
  { induction pairs as [|kv pairs IH]; intros d Hd Hpairs k0 v0; simpl; [apply Hd|].
    apply IH.
    - intros k1 v1 [-> | [v2 Hv2]]%odict_assign_keys; [|eauto].
      apply Hpairs. constructor.
    - intros kv' Hkv'. apply Hpairs. by constructor. }
  assert (Hfill : forall (keys : list string) (d : list (string * option string)),
    (forall k v, (k, v) ∈ d -> k ∈ fieldnames) ->
    (forall k, k ∈ keys -> k ∈ fieldnames) ->
    forall k v,
      (k, v) ∈ foldl (fun d key => odict_assign key None d) d keys ->
      k ∈ fieldnames).
  { induction keys as [|key keys IH]; intros d Hd Hkeys k0 v0; simpl; [apply Hd|].
    apply IH.
    - intros k1 v1 [-> | [v2 Hv2]]%odict_assign_keys; [|eauto].
      apply Hkeys. constructor.
    - intros k1 Hk1. apply Hkeys. by constructor. }
  assert (Hbase : forall k v,
    (k, v) ∈ foldl (fun d kv => odict_assign kv.1 (Some kv.2) d) []
               (zip fieldnames row) -> k ∈ fieldnames).
  { apply Hzip.
    - intros k0 v0 H0. by apply elem_of_nil in H0.
    - intros [k0 v0] Hkv. simpl. by apply elem_of_zip_l in Hkv. }
  unfold reader_line.
  destruct (length fieldnames <? length row)%nat; simpl; [apply Hbase|].
  destruct (length row <? length fieldnames)%nat; simpl; [|apply Hbase].
  apply Hfill; [exact Hbase|]. intros k0 Hk0.
  rewrite <- (take_drop (length row) fieldnames). apply elem_of_app. by right.
Qed.

(** Every key of the dict written for a line is the name of a key of the
    line, or the geography column. *)
Lemma humanize_line_keys m line new_line key :
  humanize_line m line = Ok new_line ->
  is_Some (new_line !! key) ->
  key = Some GEOGRAPHY_CODE \/
  exists code v, (code, v) ∈ ln_items line /\ name_by_code m code = Ok key.
Proof.
  unfold humanize_line. intros H.
  apply bind_Ok in H as (nl & Hloop & H).
  apply bind_Ok in H as (nl' & Hrest & H).
  destruct (ln_rest line); [discriminate|]. injection Hrest as <-.
  assert (Hnl : is_Some (nl !! key) ->
    exists code v, (code, v) ∈ ln_items line /\ name_by_code m code = Ok key).
  { revert key.
    refine (for_each_invariant _
      (fun pre (s : gmap (option string) (option string)) =>
         forall key, is_Some (s !! key) ->
         exists code v, (code, v) ∈ pre /\ name_by_code m code = Ok key)
      _ _ _ _ _ Hloop).
    - intros key [x Hx]. by rewrite lookup_empty in Hx.
    - intros pre [code v] s1 s2 IH Hstep key. unfold humanize_item in Hstep.
      apply bind_Ok in Hstep as (n & Hn & Hstep).
      apply bind_Ok in Hstep as (d & _ & [= <-]). simpl in Hn.
      destruct (decide (n = key)) as [->|Hne].
      + intros _. exists code, v. split; [|done].
        apply elem_of_app. right. constructor.
      + rewrite lookup_insert_ne by done.
        intros (code' & v' & Hin & Hname)%IH. exists code', v'.
        split; [apply elem_of_app; by left | done]. }
  destruct (odict_lookup "GEO" (ln_items line)); injection H as <-; [|auto].
  destruct (decide (Some GEOGRAPHY_CODE = key)) as [<-|Hne]; [by left|].
  rewrite lookup_insert_ne by done. auto.
Qed.

Lemma rebuild_line_failure m header names row e :
  names_by_codes m header = Ok names ->
  rebuild_line m header (Some GEOGRAPHY_CODE :: names) row = Failed e ->
  e = Metadata KeyError.
Proof.
  intros Hnames. unfold rebuild_line.
  destruct (humanize_line m (reader_line header row)) as [nl|e1] eqn:Hline.
  - unfold dict_to_list. rewrite decide_True; [done|].
    intros key x Hkey.
    destruct (humanize_line_keys _ _ _ key Hline) as [-> | (code & v & Hin & Hname)];
      [eauto | constructor |].
    apply elem_of_cons. right.
    apply reader_line_keys in Hin.
    apply names_by_codes_Ok in Hnames.
    apply list_elem_of_lookup in Hin as [i Hi].
    destruct (Forall2_lookup_l _ _ _ _ _ Hnames Hi) as (n & Hn & Hcode).
    apply list_elem_of_lookup. exists i. congruence.
  - intros [= <-]. f_equal. by apply humanize_line_raises in Hline.
Qed.

Lemma rebuild_lines_failure m header names rows e :
  names_by_codes m header = Ok names ->
  rebuild_lines m header (Some GEOGRAPHY_CODE :: names) rows = Failed e ->
  e = Metadata KeyError.
Proof.
  intros Hnames. induction rows as [|row rows IH]; [done|]. simpl.
  destruct (rebuild_line m header (Some GEOGRAPHY_CODE :: names) row)
    as [fields|e1] eqn:Hrow.
  - destruct (rebuild_lines m header (Some GEOGRAPHY_CODE :: names) rows);
      [done|]. intros [= <-]. by apply IH.
  - intros [= <-]. by eapply rebuild_line_failure.
Qed.

(** X19. [rebuild_csv] never fails in the [DictWriter]: every key of the
    dict written for a line is a field name.  It raises [TypeError] on an
    input without any record, and otherwise nothing but the [KeyError] of
    a lookup in the metadata. *)
Theorem rebuild_csv_failures m records e :
  rebuild_csv m records = Failed e ->
  e <> WriterValueError /\
  ((e = TypeError /\ records = []) \/ (e = Metadata KeyError /\ records <> [])).
Proof.
  unfold rebuild_csv. destruct records as [|header rows].
  - intros [= <-]. split; [done|]. by left.
  - destruct (names_by_codes m header) as [names|e1] eqn:Hnames.
    + simpl.
      destruct (rebuild_lines m header (Some GEOGRAPHY_CODE :: names)
                  (filter (fun row => row <> []) rows)) as [lines|e2] eqn:Hlines;
        [done|].
      intros [= <-]. apply rebuild_lines_failure in Hlines as ->; [|done].
      split; [done|]. by right.
    + intros [= <-]. apply names_by_codes_raises in Hnames as ->.
      split; [done|]. by right.
Qed.

Lemma rebuild_csv_failures_witness :
  Metadata KeyError <> WriterValueError /\
  ((Metadata KeyError = TypeError /\ [["GEO"; "SEX"]; ["35"; "2"; "x"]] = [])
   \/ (Metadata KeyError = Metadata KeyError /\
       [["GEO"; "SEX"]; ["35"; "2"; "x"]] <> [])).
Proof.
  apply (rebuild_csv_failures geography_model [["GEO"; "SEX"]; ["35"; "2"; "x"]]).
  by vm_compute.
Defined.
